(** * extract_colors.py: the palette extractor, embedded and verified

    The script opens an image with PIL, converts it to RGB, asks PIL for the
    colour histogram, sorts it by descending count and prints/returns the hex
    codes of the colours that occur more than 100 times.

    Layout of the development:
    - Python values and string formatting ([format_02x], [str_int], [hex_val]);
    - exceptions and the trace of effects ([Exc], [IO]);
    - the PIL interface the script calls ([PIL]) and its documented contract
      ([PILSpec]), with a reference instance over an in-memory disk;
    - [list.sort(key=..., reverse=True)] as a stable descending sort;
    - the script itself: [get_unique_colors] and [main];
    - the properties. *)

From Stdlib Require Import ZArith String Ascii List Lia.
From Stdlib Require Import Sorting.Sorted Sorting.Permutation.
From Stdlib Require Import DecimalString HexadecimalString.
From Stdlib Require DecimalPos DecimalZ.
From stdpp Require Import base decidable list gmap strings sets sorting.

Local Open Scope Z_scope.

(** ** Python values *)

(** A pixel of an RGB image is a 3-tuple of Python ints. *)
Definition Color : Type := Z * Z * Z.

(** What PIL guarantees of a pixel of an image in mode "RGB". *)
Definition channel8 (x : Z) : Prop := 0 <= x <= 255.
Definition rgb8 (color : Color) : Prop :=
  let '(r, g, b) := color in channel8 r /\ channel8 g /\ channel8 b.

(** One histogram entry, as [getcolors] returns it: [(count, color)]. *)
Definition Entry : Type := Z * Color.
Definition entry_count (e : Entry) : Z := fst e.
Definition entry_color (e : Entry) : Color := snd e.

(** ** String formatting *)

(** [str(n)] for a Python int. *)
Definition str_int (n : Z) : string :=
  DecimalString.NilZero.string_of_int (Z.to_int n).

(** Lowercase hexadecimal digits of a natural number, most significant
    first, ["0"] for zero: what the [x] presentation type yields. *)
Definition hex_digits (n : N) : string :=
  HexadecimalString.NilZero.string_of_uint (N.to_hex_uint n).

Fixpoint zeros (k : nat) : string :=
  match k with
  | O => EmptyString
  | S k' => String "0" (zeros k')
  end.

(** Zero fill on the left up to [width] characters. *)
Definition zfill (width : nat) (s : string) : string :=
  zeros (width - String.length s) +:+ s.

(** ["{:02x}".format(n)]: sign first, then the digits zero-filled so that
    the whole field is at least two characters wide. *)
Definition format_02x (n : Z) : string :=
  if n <? 0 then "-" +:+ zfill 1 (hex_digits (Z.abs_N n))
  else zfill 2 (hex_digits (Z.abs_N n)).

(** Line 18: ["#{:02x}{:02x}{:02x}".format(color[0], color[1], color[2])]. *)
Definition hex_val (color : Color) : string :=
  let '(c0, c1, c2) := color in
  "#" +:+ format_02x c0 +:+ format_02x c1 +:+ format_02x c2.

(** The regular expression [#[0-9a-f]{6}], anchored at both ends. *)
Definition is_lower_hex (a : ascii) : bool :=
  let n := N_of_ascii a in
  (((48 <=? n) && (n <=? 57)) || ((97 <=? n) && (n <=? 102)))%N.

Fixpoint all_chars (p : ascii -> bool) (s : string) : bool :=
  match s with
  | EmptyString => true
  | String a s' => p a && all_chars p s'
  end.

Definition matches_hex_pattern (s : string) : bool :=
  match s with
  | String a rest =>
      Ascii.eqb a "#" && Nat.eqb (String.length rest) 6
      && all_chars is_lower_hex rest
  | EmptyString => false
  end.

(** ** Exceptions and effects *)

(** The outcome of a Python expression: a value, or a raised [Exception]
    whose [str(e)] is [msg]. *)
Inductive Exc (A : Type) : Type :=
  | Ret (a : A)
  | Raise (msg : string).
Arguments Ret {A} a.
Arguments Raise {A} msg.

(** What a run does to the outside world, in order: a line written by
    [print], or a file handed to [Image.open]. *)
Inductive event : Type :=
  | Stdout (line : string)
  | FileOpen (path : string).

(** A statement block: the trace it leaves and how it ends. *)
Definition IO (A : Type) : Type := (list event * Exc A)%type.

Global Instance IO_ret : MRet IO := λ A a, ([], Ret a).

Global Instance IO_bind : MBind IO := λ A B k m,
  match m with
  | (t, Ret a) => let '(t', r) := k a in (t ++ t', r)
  | (t, Raise msg) => (t, Raise msg)
  end.

Definition print (s : string) : IO unit := ([Stdout s], Ret tt).

Definition lift {A : Type} (e : Exc A) : IO A := ([], e).

(** [try: body except Exception as e: handler(str(e))]. *)
Definition try_except {A : Type} (body : IO A) (handler : string -> IO A) : IO A :=
  match body with
  | (t, Ret a) => (t, Ret a)
  | (t, Raise msg) => let '(t', r) := handler msg in (t ++ t', r)
  end.

(** The lines written to standard output, in order. *)
Definition stdout (t : list event) : list string :=
  omap (λ ev, match ev with Stdout s => Some s | FileOpen _ => None end) t.

(** The paths handed to [Image.open], in order. *)
Definition opened_files (t : list event) : list string :=
  omap (λ ev, match ev with FileOpen p => Some p | Stdout _ => None end) t.

(** Exit status of the interpreter: 0 when the script runs to its end,
    1 when an exception escapes. The script never calls [sys.exit]. *)
Definition exit_status {A : Type} (r : IO A) : Z :=
  match snd r with
  | Ret _ => 0
  | Raise _ => 1
  end.

(** ** The PIL interface *)

(** The part of [PIL.Image] the script touches. [Image_size] and
    [Image_getdata] are not called by the script; the contract of the other
    operations is stated through them. *)
Class PIL : Type := {
  Image : Type;
  Image_open : string -> Exc Image;
  Image_convert : Image -> string -> Exc Image;
  Image_getcolors : Image -> Z -> Exc (option (list Entry));
  Image_size : Image -> Z * Z;
  Image_getdata : Image -> list Color;
}.

(** How often [c] occurs among the pixels, and how many distinct colours
    there are. *)
Definition occurrences (c : Color) (data : list Color) : Z :=
  Z.of_nat (length (filter (c =.) data)).

Definition distinct_colors (data : list Color) : Z :=
  Z.of_nat (length (remove_dups data)).

(** [Image.getcolors(maxcolors)] as documented: "Returns a list of colors
    used in this image [...] an unsorted list of (count, pixel) values. If
    the maxcolors value is exceeded, this method returns None." *)
Definition getcolors_spec (data : list Color) (maxcolors : Z)
    (r : option (list Entry)) : Prop :=
  match r with
  | None => maxcolors < distinct_colors data
  | Some h =>
      distinct_colors data <= maxcolors
      /\ NoDup (map entry_color h)
      /\ forall n c, (n, c) ∈ h <-> c ∈ data /\ n = occurrences c data
  end.

(** The contract of an image that came out of [convert("RGB")]. *)
Class PILSpec (pil : PIL) : Prop := {
  rgb_channels : forall raw img,
    Image_convert raw "RGB" = Ret img -> Forall rgb8 (Image_getdata img);
  rgb_size : forall raw img,
    Image_convert raw "RGB" = Ret img ->
    0 <= fst (Image_size img) /\ 0 <= snd (Image_size img)
    /\ Z.of_nat (length (Image_getdata img))
       = fst (Image_size img) * snd (Image_size img);
  rgb_getcolors : forall raw img maxcolors,
    Image_convert raw "RGB" = Ret img ->
    exists r, Image_getcolors img maxcolors = Ret r
              /\ getcolors_spec (Image_getdata img) maxcolors r;
}.

(** ** [list.sort(key=..., reverse=True)] *)

(** Python's sort is stable, also with [reverse=True]: elements with equal
    keys keep their order. A stable sort has one possible result, so
    insertion from the right computes the list that timsort returns. *)
Fixpoint insert_reverse {A : Type} (key : A -> Z) (x : A) (l : list A) : list A :=
  match l with
  | [] => [x]
  | y :: l' =>
      if key x <? key y then y :: insert_reverse key x l' else x :: y :: l'
  end.

Fixpoint sort_reverse {A : Type} (key : A -> Z) (l : list A) : list A :=
  match l with
  | [] => []
  | x :: l' => insert_reverse key x (sort_reverse key l')
  end.

(** [colors.sort(...)] where [colors] may be [None]. *)
Definition colors_sort (colors : option (list Entry)) : Exc (list Entry) :=
  match colors with
  | None => Raise "'NoneType' object has no attribute 'sort'"
  | Some l => Ret (sort_reverse entry_count l)
  end.

(** ** The script *)

Section Script.
Context {pil : PIL}.

(** [Image.open(image_path)]: the file is touched, then PIL answers. *)
Definition open_image (image_path : string) : IO Image :=
  ([FileOpen image_path], Image_open image_path).

(** The line printed for an accepted colour (line 26). *)
Definition color_line (hex : string) (count : Z) : string :=
  hex +:+ " (count: " +:+ str_int count +:+ ")".

(** One iteration of the [for] loop (lines 17-26) on the locals
    [unique_hexes] and [seen]. *)
Definition loop_body (entry : Entry) (locals : list string * gset string)
    : IO (list string * gset string) :=
  let '(count, color) := entry in
  let '(unique_hexes, seen) := locals in
  let hex := hex_val color in
  if decide (hex ∉ seen) then
    if 100 <? count then
      let unique_hexes := unique_hexes ++ [hex] in
      let seen := {[hex]} ∪ seen in
      print (color_line hex count) ;;
      mret (unique_hexes, seen)
    else mret (unique_hexes, seen)
  else mret (unique_hexes, seen).

Fixpoint for_loop (colors : list Entry) (locals : list string * gset string)
    : IO (list string * gset string) :=
  match colors with
  | [] => mret locals
  | entry :: rest => locals' ← loop_body entry locals; for_loop rest locals'
  end.

(** The body of the [try] (lines 6-28). *)
Definition try_body (image_path : string) : IO (list string) :=
  img ← open_image image_path;
  img ← lift (Image_convert img "RGB");
  colors ← lift (Image_getcolors img 1000000);
  colors ← lift (colors_sort colors);
  print "Extracted Colors:" ;;
  locals ← for_loop colors ([], ∅);
  mret (fst locals).

(** [get_unique_colors(image_path)]: the list on success; after the
    handler the function falls off its end and returns [None]. *)
Definition get_unique_colors (image_path : string) : IO (option (list string)) :=
  try_except
    (unique_hexes ← try_body image_path; mret (Some unique_hexes))
    (λ e, print ("Error: " +:+ e) ;; mret None).

(** The [__main__] block; [argv] is [sys.argv]. *)
Definition main (argv : list string) : IO unit :=
  if Z.of_nat (length argv) <? 2 then
    print "Usage: python extract_colors.py <image_path>"
  else
    match argv !! 1%nat with
    | Some image_path => get_unique_colors image_path ;; mret tt
    | None => lift (Raise "list index out of range")
    end.

End Script.

(** ** What the specification says the palette is *)

(** "sort the histogram descending by frequency, filter entries below a
    fixed occurrence threshold", then format. *)
Definition accepted_spec (h : list Entry) : list Entry :=
  filter (λ e, 100 < entry_count e) (sort_reverse entry_count h).

Definition palette_spec (h : list Entry) : list string :=
  map (λ e, hex_val (entry_color e)) (accepted_spec h).

Definition lines_spec (h : list Entry) : list string :=
  map (λ e, color_line (hex_val (entry_color e)) (entry_count e)) (accepted_spec h).

(** ** A reference PIL over an in-memory disk *)

(** Decoded files: the size [(width, height)] and the pixels, row by row. *)
Record RefImage : Type := {
  ref_size : Z * Z;
  ref_pixels : list Color;
}.

Definition channel8b (x : Z) : bool := (0 <=? x) && (x <=? 255).
Definition rgb8b (color : Color) : bool :=
  let '(r, g, b) := color in channel8b r && channel8b g && channel8b b.

(** A file decodes when it holds [width * height] 8-bit pixels. *)
Definition ref_valid (img : RefImage) : bool :=
  (0 <=? fst (ref_size img)) && (0 <=? snd (ref_size img))
  && (Z.of_nat (length (ref_pixels img)) =? fst (ref_size img) * snd (ref_size img))
  && forallb rgb8b (ref_pixels img).

Definition ref_open (disk : gmap string RefImage) (path : string) : Exc RefImage :=
  match disk !! path with
  | Some img => Ret img
  | None => Raise ("[Errno 2] No such file or directory: '" +:+ path +:+ "'")
  end.

Definition ref_convert (img : RefImage) (mode : string) : Exc RefImage :=
  if decide (mode = "RGB"%string) then
    if ref_valid img then Ret img else Raise "image file is truncated"
  else Raise "conversion from RGB not supported".

Definition ref_histogram (data : list Color) : list Entry :=
  map (λ c, (occurrences c data, c)) (remove_dups data).

Definition ref_getcolors (img : RefImage) (maxcolors : Z) : Exc (option (list Entry)) :=
  let h := ref_histogram (ref_pixels img) in
  Ret (if maxcolors <? Z.of_nat (length h) then None else Some h).

Definition ref_pil (disk : gmap string RefImage) : PIL := {|
  Image := RefImage;
  Image_open := ref_open disk;
  Image_convert := ref_convert;
  Image_getcolors := ref_getcolors;
  Image_size := ref_size;
  Image_getdata := ref_pixels;
|}.

(** A PIL whose [getcolors] answers with a fixed value whatever the file:
    enough to run the script on a given histogram. *)
Definition const_pil (colors : Exc (option (list Entry))) : PIL := {|
  Image := unit;
  Image_open := λ _, Ret tt;
  Image_convert := λ _ _, Ret tt;
  Image_getcolors := λ _ _, colors;
  Image_size := λ _, (0, 0);
  Image_getdata := λ _, [];
|}.

(** Sample files. *)
Definition orange : Color := (255, 128, 0).
Definition teal : Color := (0, 128, 128).
Definition grey : Color := (17, 17, 17).

Definition solid_image (w h : Z) (c : Color) : RefImage :=
  {| ref_size := (w, h); ref_pixels := replicate (Z.to_nat (w * h)) c |}.

(** 200 teal pixels, then 500 orange ones, then 50 grey ones. *)
Definition blocks_image : RefImage :=
  {| ref_size := (75, 10);
     ref_pixels := replicate 200 teal ++ replicate 500 orange ++ replicate 50 grey |}.

(** 100 pixels of each of two colours: nothing reaches the threshold. *)
Definition faint_image : RefImage :=
  {| ref_size := (20, 10);
     ref_pixels := replicate 100 teal ++ replicate 100 orange |}.

(** The [i]-th colour of the RGB cube, and an image of [n] pixels that are
    all different (for [n] up to 2^24). *)
Definition cube_color (i : nat) : Color :=
  let z := Z.of_nat i in (z mod 256, (z / 256) mod 256, (z / 65536) mod 256).

Definition gradient_image (n : nat) : RefImage :=
  {| ref_size := (Z.of_nat n, 1); ref_pixels := map cube_color (seq 0 n) |}.

Definition sample_disk : gmap string RefImage :=
  {[ "solid.png"%string := solid_image 11 10 orange;
     "blocks.png"%string := blocks_image;
     "faint.png"%string := faint_image ]}.

Definition gradient_disk : gmap string RefImage :=
  {[ "gradient.png"%string := gradient_image (N.to_nat 1000001) ]}.

(** ** The script, step by step *)

Global Instance Exc_bind : MBind Exc := λ A B k e,
  match e with
  | Ret a => k a
  | Raise msg => Raise msg
  end.

(** What the three PIL calls of lines 6-8 answer for a path. *)
Definition pil_colors {pil : PIL} (image_path : string) : Exc (option (list Entry)) :=
  raw ← Image_open image_path;
  img ← Image_convert raw "RGB";
  Image_getcolors img 1000000.

(** The entries of [colors] that the loop accepts when it starts with the
    set [seen]: not seen yet, and more than 100 occurrences. *)
Fixpoint kept (colors : list Entry) (seen : gset string) : list Entry :=
  match colors with
  | [] => []
  | e :: rest =>
      if decide (hex_val (entry_color e) ∉ seen) then
        if 100 <? entry_count e
        then e :: kept rest ({[hex_val (entry_color e)]} ∪ seen)
        else kept rest seen
      else kept rest seen
  end.

Definition entry_hex (e : Entry) : string := hex_val (entry_color e).
Definition entry_line (e : Entry) : string :=
  color_line (hex_val (entry_color e)) (entry_count e).

(** The run of the script as a function of the path and of PIL's answer. *)
Definition run_on (image_path : string) (answer : Exc (option (list Entry)))
    : IO (option (list string)) :=
  match answer ≫= colors_sort with
  | Raise msg => ([FileOpen image_path; Stdout ("Error: " +:+ msg)], Ret None)
  | Ret colors =>
      (FileOpen image_path :: Stdout "Extracted Colors:"
         :: map Stdout (map entry_line (kept colors ∅)),
       Ret (Some (map entry_hex (kept colors ∅))))
  end.

(** A list sorted by descending key. *)
Definition descending {A : Type} (key : A -> Z) (l : list A) : Prop :=
  StronglySorted (λ a b, key b <= key a) l.

(** A file of 100 pixels: 60 teal ones and 40 orange ones. *)
Definition tiny_image : RefImage :=
  {| ref_size := (10, 10);
     ref_pixels := replicate 60 teal ++ replicate 40 orange |}.

Definition tiny_disk : gmap string RefImage :=
  {[ "tiny.png"%string := tiny_image ]}.

(** ** The output formats, read from the specification *)

(** The sixteen lowercase hexadecimal digits. *)
Definition hex_digit (d : Z) : ascii :=
  match d with
  | 0 => "0" | 1 => "1" | 2 => "2" | 3 => "3"
  | 4 => "4" | 5 => "5" | 6 => "6" | 7 => "7"
  | 8 => "8" | 9 => "9" | 10 => "a" | 11 => "b"
  | 12 => "c" | 13 => "d" | 14 => "e" | _ => "f"
  end%char.

(** "#rrggbb, lowercase": a hash sign, then for each of red, green and
    blue the sixteens digit and the units digit. *)
Definition rrggbb (color : Color) : string :=
  let '(r, g, b) := color in
  String "#"
    (String (hex_digit (r / 16)) (String (hex_digit (r mod 16))
    (String (hex_digit (g / 16)) (String (hex_digit (g mod 16))
    (String (hex_digit (b / 16)) (String (hex_digit (b mod 16))
     EmptyString)))))).

(** Reading a decimal numeral back: the integer it denotes, if any. *)
Definition read_int (s : string) : option Z :=
  option_map Z.of_int (DecimalString.NilZero.int_of_string s).

Definition two_digits (x : Z) : bool :=
  String.eqb (format_02x x)
    (String (hex_digit (x / 16)) (String (hex_digit (x mod 16)) EmptyString)).

(** 150 teal pixels, 300 orange ones, 150 grey ones and 30 white ones:
    teal and grey tie. *)
Definition white : Color := (255, 255, 255).

Definition ties_image : RefImage :=
  {| ref_size := (63, 10);
     ref_pixels := replicate 150 teal ++ replicate 300 orange
                   ++ replicate 150 grey ++ replicate 30 white |}.

Definition ties_disk : gmap string RefImage :=
  {[ "ties.png"%string := ties_image ]}.

(** ** Checking a property on every 8-bit channel value *)

Definition all_channels (p : Z -> bool) : bool :=
  forallb p (map Z.of_nat (seq 0 256)).

Definition two_lower_hex (x : Z) : bool :=
  Nat.eqb (String.length (format_02x x)) 2
  && all_chars is_lower_hex (format_02x x).

Definition format_distinct_from (x y : Z) : bool :=
  implb (String.eqb (format_02x x) (format_02x y)) (x =? y).

(** * Properties *)

(** ** Formatting *)

Lemma all_channels_spec (p : Z -> bool) :
  all_channels p = true -> forall x, channel8 x -> p x = true.
Proof.
  unfold all_channels, channel8. intros Hall x Hx.
  rewrite forallb_forall in Hall. apply Hall.
  replace x with (Z.of_nat (Z.to_nat x)) by lia.
  apply in_map, in_seq. lia.
Qed.

Lemma channel8b_spec (x : Z) : channel8b x = true <-> channel8 x.
Proof. unfold channel8b, channel8. rewrite andb_true_iff. lia. Qed.

Lemma rgb8b_spec (color : Color) : rgb8b color = true <-> rgb8 color.
Proof.
  destruct color as [[r g] b]. unfold rgb8b, rgb8.
  rewrite !andb_true_iff, !channel8b_spec. tauto.
Qed.

Lemma format_02x_channel (x : Z) :
  channel8 x ->
  exists a b, format_02x x = String a (String b EmptyString)
              /\ is_lower_hex a = true /\ is_lower_hex b = true.
Proof.
  intros Hx.
  assert (Hp : two_lower_hex x = true)
    by (apply all_channels_spec; [vm_compute; reflexivity | exact Hx]).
  unfold two_lower_hex in Hp. apply andb_true_iff in Hp as [Hlen Hhex].
  apply Nat.eqb_eq in Hlen.
  destruct (format_02x x) as [|a [|b [|? ?]]]; try discriminate.
  simpl in Hhex. rewrite !andb_true_iff in Hhex.
  exists a, b. tauto.
Qed.

Lemma format_02x_inj (x y : Z) :
  channel8 x -> channel8 y -> format_02x x = format_02x y -> x = y.
Proof.
  intros Hx Hy Heq.
  assert (Hp : all_channels (format_distinct_from x) = true).
  { clear Heq. revert x Hx. apply (all_channels_spec (λ x, all_channels (format_distinct_from x))).
    vm_compute. reflexivity. }
  pose proof (all_channels_spec _ Hp y Hy) as Hxy.
  unfold format_distinct_from in Hxy.
  rewrite Heq, String.eqb_refl in Hxy. simpl in Hxy. lia.
Qed.

Lemma hex_val_shape (color : Color) :
  rgb8 color ->
  exists a1 a2 b1 b2 c1 c2,
    hex_val color
    = String "#" (String a1 (String a2 (String b1 (String b2
        (String c1 (String c2 EmptyString))))))
    /\ format_02x color.1.1 = String a1 (String a2 EmptyString)
    /\ format_02x color.1.2 = String b1 (String b2 EmptyString)
    /\ format_02x color.2 = String c1 (String c2 EmptyString)
    /\ all_chars is_lower_hex
         (String a1 (String a2 (String b1 (String b2
           (String c1 (String c2 EmptyString)))))) = true.
Proof.
  destruct color as [[r g] b]. intros (Hr & Hg & Hb).
  destruct (format_02x_channel r Hr) as (a1 & a2 & Er & Ha1 & Ha2).
  destruct (format_02x_channel g Hg) as (b1 & b2 & Eg & Hb1 & Hb2).
  destruct (format_02x_channel b Hb) as (c1 & c2 & Eb & Hc1 & Hc2).
  exists a1, a2, b1, b2, c1, c2. unfold hex_val. simpl.
  rewrite Er, Eg, Eb, Ha1, Ha2, Hb1, Hb2, Hc1, Hc2. simpl. tauto.
Qed.

Lemma hex_val_inj (c c' : Color) :
  rgb8 c -> rgb8 c' -> hex_val c = hex_val c' -> c = c'.
Proof.
  intros Hc Hc' Heq.
  destruct (hex_val_shape c Hc) as (a1 & a2 & b1 & b2 & c1 & c2 & E & Er & Eg & Eb & _).
  destruct (hex_val_shape c' Hc') as (a1' & a2' & b1' & b2' & c1' & c2' & E' & Er' & Eg' & Eb' & _).
  rewrite E, E' in Heq. injection Heq as -> -> -> -> -> ->.
  destruct c as [[r g] b], c' as [[r' g'] b']. simpl in *.
  destruct Hc as (? & ? & ?), Hc' as (? & ? & ?).
  f_equal; [f_equal|]; apply format_02x_inj; congruence.
Qed.

(** C5. Whenever the three channels are integers in 0..255, the string
    that line 18 formats is exactly 7 characters long and matches
    [#[0-9a-f]{6}]: a hash sign and six lowercase hexadecimal digits. *)
Theorem hex_val_seven_lowercase (c0 c1 c2 : Z) :
  0 <= c0 <= 255 -> 0 <= c1 <= 255 -> 0 <= c2 <= 255 ->
  String.length (hex_val (c0, c1, c2)) = 7%nat
  /\ matches_hex_pattern (hex_val (c0, c1, c2)) = true.
Proof.
  intros H0 H1 H2.
  destruct (hex_val_shape (c0, c1, c2)) as (a1 & a2 & b1 & b2 & d1 & d2 & E & _ & _ & _ & Hhex).
  { repeat split; unfold channel8; lia. }
  rewrite E. split; [reflexivity|].
  unfold matches_hex_pattern. rewrite Hhex. reflexivity.
Qed.

Lemma hex_val_seven_lowercase_witness :
  String.length (hex_val (255, 128, 0)) = 7%nat
  /\ matches_hex_pattern (hex_val (255, 128, 0)) = true.
Proof. apply (hex_val_seven_lowercase 255 128 0); lia. Defined.

(** ** The stable descending sort *)

Section Sort.
Context {A : Type} (key : A -> Z).

Lemma insert_reverse_perm (x : A) (l : list A) :
  insert_reverse key x l ≡ₚ x :: l.
Proof.
  induction l as [|y l IH]; simpl; [done|].
  destruct (key x <? key y); [|done].
  rewrite IH. apply Permutation_swap.
Qed.

Lemma sort_reverse_perm (l : list A) : sort_reverse key l ≡ₚ l.
Proof.
  induction l as [|x l IH]; simpl; [done|].
  by rewrite insert_reverse_perm, IH.
Qed.

Lemma insert_reverse_descending (x : A) (l : list A) :
  descending key l -> descending key (insert_reverse key x l).
Proof.
  unfold descending. induction 1 as [|y l Hl IH Hy]; simpl.
  - repeat constructor.
  - destruct (key x <? key y) eqn:E.
    + constructor; [exact IH|].
      rewrite insert_reverse_perm. constructor; [lia | exact Hy].
    + constructor; [by constructor|].
      constructor; [lia|].
      eapply Forall_impl; [exact Hy|]. simpl. intros; lia.
Qed.

Lemma sort_reverse_descending (l : list A) : descending key (sort_reverse key l).
Proof.
  induction l as [|x l IH]; simpl.
  - constructor.
  - by apply insert_reverse_descending.
Qed.

(** Insertion never moves an element past one with the same key. *)
Lemma insert_reverse_stable (k : Z) (x : A) (l : list A) :
  filter (λ a, key a = k) (insert_reverse key x l)
  = filter (λ a, key a = k) (x :: l).
Proof.
  induction l as [|y l IH]; simpl; [done|].
  destruct (key x <? key y) eqn:E; [|done].
  rewrite (filter_cons _ y), IH, !filter_cons.
  repeat case_decide; try done; lia.
Qed.

Lemma sort_reverse_stable (k : Z) (l : list A) :
  filter (λ a, key a = k) (sort_reverse key l) = filter (λ a, key a = k) l.
Proof.
  induction l as [|x l IH]; simpl; [done|].
  by rewrite insert_reverse_stable, !filter_cons, IH.
Qed.

(** A stable descending sort has only one possible result. *)
Lemma descending_stable_unique (l1 l2 : list A) :
  descending key l1 -> descending key l2 ->
  (forall k, filter (λ a, key a = k) l1 = filter (λ a, key a = k) l2) ->
  l1 = l2.
Proof.
  unfold descending. intros H1. revert l2.
  induction H1 as [|x l1 Hl1 IH Hx]; intros l2 H2 Heq.
  - destruct l2 as [|y l2]; [done|].
    specialize (Heq (key y)). rewrite filter_cons_True in Heq by done. done.
  - destruct H2 as [|y l2 Hl2 Hy].
    + specialize (Heq (key x)). rewrite filter_cons_True in Heq by done. done.
    + assert (Hin1 : x ∈ y :: l2).
      { eapply (list_elem_of_filter (λ a, key a = key x)).
        rewrite <- Heq, filter_cons_True by done. left. }
      assert (Hin2 : y ∈ x :: l1).
      { eapply (list_elem_of_filter (λ a, key a = key y)).
        rewrite Heq, filter_cons_True by done. left. }
      assert (Hk : key x = key y).
      { rewrite Forall_forall in Hx, Hy.
        apply elem_of_cons in Hin1 as [->|Hin1]; [done|].
        apply elem_of_cons in Hin2 as [->|Hin2]; [done|].
        specialize (Hx _ Hin2). specialize (Hy _ Hin1). lia. }
      pose proof (Heq (key x)) as Hhead.
      rewrite !filter_cons_True in Hhead by done.
      injection Hhead as -> Htail. f_equal.
      apply IH; [done|]. intros k. specialize (Heq k).
      rewrite !filter_cons in Heq. case_decide; congruence.
Qed.

End Sort.

(** ** The loop and the whole run *)

Lemma for_loop_kept (colors : list Entry) (unique_hexes : list string)
    (seen : gset string) :
  exists seen',
    for_loop colors (unique_hexes, seen)
    = (map Stdout (map entry_line (kept colors seen)),
       Ret (unique_hexes ++ map entry_hex (kept colors seen), seen')).
Proof.
  revert unique_hexes seen.
  induction colors as [|[count color] rest IH]; intros unique_hexes seen; simpl.
  - exists seen. by rewrite app_nil_r.
  - unfold entry_color, entry_count; simpl.
    destruct (decide (hex_val color ∉ seen)) as [Hnew|Hold];
      [destruct (100 <? count) eqn:Hcount|].
    + destruct (IH (unique_hexes ++ [hex_val color]) ({[hex_val color]} ∪ seen))
        as [seen' Hrest].
      exists seen'. unfold mbind, IO_bind. rewrite Hrest. simpl.
      by rewrite <- app_assoc.
    + destruct (IH unique_hexes seen) as [seen' Hrest].
      exists seen'. unfold mbind, IO_bind, mret, IO_ret. by rewrite Hrest.
    + destruct (IH unique_hexes seen) as [seen' Hrest].
      exists seen'. unfold mbind, IO_bind, mret, IO_ret. by rewrite Hrest.
Qed.

Lemma try_body_run {pil : PIL} (image_path : string) :
  try_body image_path
  = match pil_colors image_path ≫= colors_sort with
    | Raise msg => ([FileOpen image_path], Raise msg)
    | Ret colors =>
        (FileOpen image_path :: Stdout "Extracted Colors:"
           :: map Stdout (map entry_line (kept colors ∅)),
         Ret (map entry_hex (kept colors ∅)))
    end.
Proof.
  unfold try_body, pil_colors, open_image, lift.
  destruct (Image_open image_path) as [raw|msg]; simpl; [|done].
  destruct (Image_convert raw "RGB") as [img|msg]; simpl; [|done].
  destruct (Image_getcolors img 1000000) as [[h|]|msg]; simpl; [|done|done].
  destruct (for_loop_kept (sort_reverse entry_count h) [] ∅) as [seen' Hloop].
  rewrite Hloop. unfold mbind, IO_bind, mret, IO_ret. simpl.
  by rewrite !app_nil_r.
Qed.

Lemma get_unique_colors_run {pil : PIL} (image_path : string) :
  get_unique_colors image_path = run_on image_path (pil_colors image_path).
Proof.
  unfold get_unique_colors, run_on. rewrite try_body_run.
  destruct (pil_colors image_path ≫= colors_sort) as [colors|msg]; simpl.
  - by rewrite !app_nil_r.
  - done.
Qed.

Lemma try_body_raise {pil : PIL} (image_path : string) (t : list event)
    (msg : string) :
  try_body image_path = (t, Raise msg) ->
  pil_colors image_path ≫= colors_sort = Raise msg.
Proof.
  rewrite try_body_run.
  destruct (pil_colors image_path ≫= colors_sort); [discriminate|].
  by intros [= _ ->].
Qed.

(** The four ways in which the body can raise: each of the three PIL calls,
    and the sort when [getcolors] answered [None]. All of them come before
    the banner. *)
Lemma try_body_raise_cases {pil : PIL} (image_path : string) (t : list event)
    (msg : string) :
  try_body image_path = (t, Raise msg) <->
  t = [FileOpen image_path]
  /\ (Image_open image_path = Raise msg
      \/ (exists raw, Image_open image_path = Ret raw
                      /\ Image_convert raw "RGB" = Raise msg)
      \/ (exists raw img, Image_open image_path = Ret raw
                          /\ Image_convert raw "RGB" = Ret img
                          /\ Image_getcolors img 1000000 = Raise msg)
      \/ (exists raw img, Image_open image_path = Ret raw
                          /\ Image_convert raw "RGB" = Ret img
                          /\ Image_getcolors img 1000000 = Ret None
                          /\ msg = "'NoneType' object has no attribute 'sort'"%string)).
Proof.
  rewrite try_body_run. unfold pil_colors.
  destruct (Image_open image_path) as [raw|m0] eqn:Hopen; simpl.
  - destruct (Image_convert raw "RGB") as [img|m1] eqn:Hconvert; simpl.
    + destruct (Image_getcolors img 1000000) as [[h|]|m2] eqn:Hcolors; simpl.
      * split; [discriminate|].
        intros (_ & [?|[(? & [= <-] & ?)|[(? & ? & [= <-] & ? & ?)|(? & ? & [= <-] & ? & ? & _)]]]);
          congruence.
      * split.
        -- intros [= <- <-]. split; [done|]. do 3 right. by exists raw, img.
        -- intros (-> & [?|[(? & [= <-] & ?)|[(? & ? & [= <-] & ? & ?)|(? & ? & [= <-] & ? & ? & ->)]]]);
             congruence.
      * split.
        -- intros [= <- <-]. split; [done|]. right; right; left. by exists raw, img.
        -- intros (-> & [?|[(? & [= <-] & ?)|[(? & ? & [= <-] & ? & ?)|(? & ? & [= <-] & ? & ? & _)]]]);
             congruence.
    + split.
      * intros [= <- <-]. split; [done|]. right; left. by exists raw.
      * intros (-> & [?|[(? & [= <-] & ?)|[(? & ? & [= <-] & ? & ?)|(? & ? & [= <-] & ? & ? & _)]]]);
          congruence.
  - split.
    + intros [= <- <-]. split; [done|]. by left.
    + intros (-> & [?|[(? & ? & ?)|[(? & ? & ? & ? & ?)|(? & ? & ? & ? & ? & _)]]]);
        congruence.
Qed.

Lemma pil_colors_ret {pil : PIL} (image_path : string) (raw img : Image)
    (colors : option (list Entry)) :
  Image_open image_path = Ret raw ->
  Image_convert raw "RGB" = Ret img ->
  Image_getcolors img 1000000 = Ret colors ->
  pil_colors image_path = Ret colors.
Proof.
  intros Hopen Hconvert Hcolors. unfold pil_colors.
  rewrite Hopen. simpl. rewrite Hconvert. simpl. exact Hcolors.
Qed.

(** Everything the loop accepts has more than 100 occurrences, in the
    order of the list it walks. *)
Lemma kept_sublist (colors : list Entry) (seen : gset string) :
  kept colors seen `sublist_of` filter (λ e, 100 < entry_count e) colors.
Proof.
  revert seen. induction colors as [|e rest IH]; intros seen; cbn [kept]; [done|].
  rewrite filter_cons.
  destruct (decide (hex_val (entry_color e) ∉ seen));
    destruct (100 <? entry_count e) eqn:E; case_decide; try lia.
  - by apply sublist_skip.
  - done.
  - by apply sublist_cons.
  - done.
Qed.

(** With pairwise different hex codes, none of them seen before, the
    [seen] test never fires. *)
Lemma kept_filter (colors : list Entry) (seen : gset string) :
  NoDup (map entry_hex colors) ->
  (forall e, e ∈ colors -> entry_hex e ∉ seen) ->
  kept colors seen = filter (λ e, 100 < entry_count e) colors.
Proof.
  revert seen.
  induction colors as [|e rest IH]; intros seen Hnodup Hfresh; cbn [kept]; [done|].
  rewrite filter_cons. cbn [map] in Hnodup. apply NoDup_cons in Hnodup as [Hhead Hrest].
  destruct (decide (hex_val (entry_color e) ∉ seen)) as [_|Hseen].
  - destruct (100 <? entry_count e) eqn:E; case_decide; try lia.
    + f_equal. apply IH; [done|]. intros e' He'.
      rewrite not_elem_of_union, not_elem_of_singleton. split.
      * intros Heq. apply Hhead. unfold entry_hex at 1. rewrite <- Heq.
        apply list_elem_of_fmap. by exists e'.
      * apply Hfresh. by right.
    + apply IH; [done|]. intros e' He'. apply Hfresh. by right.
  - exfalso. apply Hseen. apply (Hfresh e). left.
Qed.

Lemma NoDup_hex_of_colors (h : list Entry) :
  NoDup (map entry_color h) ->
  Forall (λ e, rgb8 (entry_color e)) h ->
  NoDup (map entry_hex h).
Proof.
  intros Hnodup Hrgb. rewrite Forall_forall in Hrgb.
  assert (E : map entry_hex h = hex_val <$> (entry_color <$> h))
    by (symmetry; apply (map_map entry_color hex_val)).
  rewrite E. apply NoDup_fmap_2_strong; [|exact Hnodup].
  intros c c' Hc Hc' Heq.
  apply list_elem_of_fmap in Hc as (e & -> & He).
  apply list_elem_of_fmap in Hc' as (e' & -> & He').
  apply hex_val_inj; [by apply Hrgb..|exact Heq].
Qed.

Lemma kept_filter_rgb (h : list Entry) :
  NoDup (map entry_color h) ->
  Forall (λ e, rgb8 (entry_color e)) h ->
  kept (sort_reverse entry_count h) ∅ = accepted_spec h.
Proof.
  intros Hnodup Hrgb. unfold accepted_spec. apply kept_filter.
  - rewrite (sort_reverse_perm entry_count h). by apply NoDup_hex_of_colors.
  - intros e _. apply not_elem_of_empty.
Qed.

(** ** The reference PIL meets the contract *)

Lemma ref_histogram_colors (data : list Color) :
  map entry_color (ref_histogram data) = remove_dups data.
Proof.
  unfold ref_histogram. rewrite map_map. simpl. apply map_id.
Qed.

Lemma ref_histogram_length (data : list Color) :
  Z.of_nat (length (ref_histogram data)) = distinct_colors data.
Proof. unfold ref_histogram, distinct_colors. by rewrite length_map. Qed.

Lemma ref_histogram_elem (data : list Color) (n : Z) (c : Color) :
  (n, c) ∈ ref_histogram data <-> c ∈ data /\ n = occurrences c data.
Proof.
  unfold ref_histogram.
  change (map ?f ?l) with (f <$> l). rewrite list_elem_of_fmap. split.
  - intros (c' & [= -> ->] & Hin). split; [|done].
    by apply elem_of_remove_dups.
  - intros [Hin ->]. exists c. by rewrite elem_of_remove_dups.
Qed.

Lemma ref_getcolors_meets_spec (img : RefImage) (maxcolors : Z) :
  exists r, ref_getcolors img maxcolors = Ret r
            /\ getcolors_spec (ref_pixels img) maxcolors r.
Proof.
  unfold ref_getcolors. eexists. split; [reflexivity|].
  rewrite ref_histogram_length.
  destruct (maxcolors <? distinct_colors (ref_pixels img)) eqn:E; simpl.
  - lia.
  - split; [lia|]. split.
    + rewrite ref_histogram_colors. apply NoDup_remove_dups.
    + apply ref_histogram_elem.
Qed.

Lemma ref_convert_ret (raw img : RefImage) :
  ref_convert raw "RGB" = Ret img -> img = raw /\ ref_valid raw = true.
Proof.
  unfold ref_convert. rewrite decide_True by done.
  destruct (ref_valid raw); [|discriminate]. by intros [= ->].
Qed.

Lemma ref_pil_spec (disk : gmap string RefImage) : PILSpec (ref_pil disk).
Proof.
  split; simpl.
  - intros raw img [-> Hvalid]%ref_convert_ret.
    unfold ref_valid in Hvalid. rewrite !andb_true_iff in Hvalid.
    destruct Hvalid as [_ Hpix]. rewrite forallb_forall in Hpix.
    apply Forall_forall. intros c Hc. apply rgb8b_spec, Hpix.
    by apply list_elem_of_In.
  - intros raw img [-> Hvalid]%ref_convert_ret.
    unfold ref_valid in Hvalid. rewrite !andb_true_iff in Hvalid. lia.
  - intros raw img maxcolors _. apply ref_getcolors_meets_spec.
Qed.

(** ** Order-preserving selections *)

Lemma descending_sublist {A : Type} (key : A -> Z) (l1 l2 : list A) :
  l1 `sublist_of` l2 -> descending key l2 -> descending key l1.
Proof.
  unfold descending. induction 1 as [|x l1 l2 Hsub IH|x l1 l2 Hsub IH]; intros Hsorted.
  - constructor.
  - apply StronglySorted_inv in Hsorted as [Htail Hhead].
    constructor; [by apply IH|].
    rewrite Forall_forall in Hhead. apply Forall_forall. intros y Hy.
    apply Hhead. eapply elem_of_sublist; eauto.
  - apply StronglySorted_inv in Hsorted as [Htail _]. by apply IH.
Qed.

Lemma filter_sublist_mono {A : Type} (P : A -> Prop) `{!forall x, Decision (P x)}
    (l1 l2 : list A) :
  l1 `sublist_of` l2 -> filter P l1 `sublist_of` filter P l2.
Proof.
  induction 1 as [|x l1 l2 Hsub IH|x l1 l2 Hsub IH]; [done|..];
    rewrite ?filter_cons; repeat case_decide; try done.
  - by apply sublist_skip.
  - by apply sublist_cons.
Qed.

Lemma filter_none {A : Type} (P : A -> Prop) `{!forall x, Decision (P x)}
    (l : list A) :
  Forall (λ x, ~ P x) l -> filter P l = [].
Proof.
  induction 1 as [|x l Hx _ IH]; [done|].
  by rewrite filter_cons_False.
Qed.

(** With every count at most 100 the loop accepts nothing. *)
Lemma kept_none (h : list Entry) (seen : gset string) :
  Forall (λ e, entry_count e <= 100) h ->
  kept (sort_reverse entry_count h) seen = [].
Proof.
  intros Hrare. apply sublist_nil_r.
  rewrite <- (filter_none (λ e, 100 < entry_count e) (sort_reverse entry_count h)).
  - apply kept_sublist.
  - rewrite (sort_reverse_perm entry_count h).
    eapply Forall_impl; [exact Hrare|]. simpl. intros; lia.
Qed.

(** ** Consequences of the PIL contract *)

Lemma remove_dups_NoDup {A : Type} `{!EqDecision A} (l : list A) :
  NoDup l -> remove_dups l = l.
Proof.
  induction 1 as [|x l Hx _ IH]; simpl; [done|].
  destruct (decide_rel elem_of x l); [done|]. by rewrite IH.
Qed.

Lemma NoDup_all_same {A : Type} (a : A) (l : list A) :
  NoDup l -> (forall x, x ∈ l -> x = a) -> l = [] \/ l = [a].
Proof.
  intros Hnodup Hsame. destruct l as [|x [|y l]].
  - by left.
  - right. f_equal. apply Hsame. left.
  - exfalso. apply NoDup_cons in Hnodup as [Hx _]. apply Hx.
    rewrite (Hsame x), (Hsame y); [left | right; left | left].
Qed.

Lemma occurrences_pos_elem (c : Color) (data : list Color) :
  0 < occurrences c data -> c ∈ data.
Proof.
  unfold occurrences. intros Hpos.
  destruct (filter (c =.) data) as [|x l] eqn:E; [simpl in Hpos; lia|].
  assert (Hx : x ∈ filter (c =.) data) by (rewrite E; left).
  apply list_elem_of_filter in Hx as [-> Hx]. exact Hx.
Qed.

Lemma occurrences_all_same (c : Color) (data : list Color) :
  Forall (λ p, p = c) data -> occurrences c data = Z.of_nat (length data).
Proof.
  unfold occurrences. induction 1 as [|x l -> _ IH]; [done|].
  rewrite filter_cons_True by done. simpl length. lia.
Qed.

Section Contract.
Context {pil : PIL} {spec : PILSpec pil}.

Lemma getcolors_answer (raw img : Image) (maxcolors : Z)
    (colors : option (list Entry)) :
  Image_convert raw "RGB" = Ret img ->
  Image_getcolors img maxcolors = Ret colors ->
  getcolors_spec (Image_getdata img) maxcolors colors.
Proof.
  intros Hconvert Hcolors.
  destruct (rgb_getcolors raw img maxcolors Hconvert) as (r & Hr & Hspec).
  rewrite Hcolors in Hr. by injection Hr as ->.
Qed.

(** The histogram of an RGB image has pairwise different 8-bit colours. *)
Lemma histogram_colors (raw img : Image) (maxcolors : Z) (h : list Entry) :
  Image_convert raw "RGB" = Ret img ->
  Image_getcolors img maxcolors = Ret (Some h) ->
  NoDup (map entry_color h) /\ Forall (λ e, rgb8 (entry_color e)) h.
Proof.
  intros Hconvert Hcolors.
  destruct (getcolors_answer _ _ _ _ Hconvert Hcolors) as (_ & Hnodup & Helem).
  split; [exact Hnodup|].
  pose proof (rgb_channels raw img Hconvert) as Hrgb.
  rewrite Forall_forall in Hrgb. apply Forall_forall. intros [n c] He.
  apply Hrgb. by apply Helem in He as [Hc _].
Qed.

(** An image of one colour has the one-entry histogram. *)
Lemma solid_histogram (raw img : Image) (maxcolors : Z) (c : Color) :
  Image_convert raw "RGB" = Ret img ->
  1 <= maxcolors ->
  Forall (λ p, p = c) (Image_getdata img) ->
  (0 < length (Image_getdata img))%nat ->
  Image_getcolors img maxcolors
  = Ret (Some [(Z.of_nat (length (Image_getdata img)), c)]).
Proof.
  intros Hconvert Hmax Hsolid Hlen.
  destruct (rgb_getcolors raw img maxcolors Hconvert) as (r & Hr & Hspec).
  rewrite Hr. do 2 f_equal. set (data := Image_getdata img) in *.
  pose proof Hsolid as Hall. rewrite Forall_forall in Hall.
  assert (Hc : c ∈ data).
  { destruct data as [|p data']; [simpl in Hlen; lia|].
    rewrite <- (Hall p); left. }
  destruct r as [h|]; simpl in Hspec.
  - destruct Hspec as (_ & Hnodup & Helem). f_equal.
    assert (Hin : (Z.of_nat (length data), c) ∈ h).
    { apply Helem. split; [exact Hc|]. symmetry. by apply occurrences_all_same. }
    destruct (NoDup_all_same (Z.of_nat (length data), c) h) as [->| ->].
    + eapply NoDup_fmap_1. exact Hnodup.
    + intros [n c'] He. apply Helem in He as [Hc' ->].
      rewrite (Hall c' Hc'). f_equal. by apply occurrences_all_same.
    + by apply not_elem_of_nil in Hin.
    + done.
  - exfalso. unfold distinct_colors in Hspec.
    destruct (NoDup_all_same c (remove_dups data)) as [E|E].
    + apply NoDup_remove_dups.
    + intros x Hx. apply Hall. by apply elem_of_remove_dups.
    + rewrite E in Hspec. simpl in Hspec. lia.
    + rewrite E in Hspec. simpl in Hspec. lia.
Qed.

End Contract.

(** ** The claims *)


(** C4. Whenever the body of the [try] raises, whatever the step that
    raised, the run consists of opening the file and printing the single
    line [Error: <message>]; nothing else is printed and the function
    returns [None], not a list. *)
Theorem failure_prints_error_only {pil : PIL} (image_path : string)
    (t : list event) (msg : string) :
  try_body image_path = (t, Raise msg) ->
  get_unique_colors image_path
  = ([FileOpen image_path; Stdout ("Error: " +:+ msg)], Ret None)
  /\ stdout (fst (get_unique_colors image_path)) = ["Error: " +:+ msg].
Proof.
  intros Hraise%try_body_raise.
  rewrite get_unique_colors_run. unfold run_on. by rewrite Hraise.
Qed.

Lemma failure_prints_error_only_witness :
  get_unique_colors (pil := ref_pil sample_disk) "missing.png"
  = ([FileOpen "missing.png";
      Stdout "Error: [Errno 2] No such file or directory: 'missing.png'"],
     Ret None)
  /\ stdout (fst (get_unique_colors (pil := ref_pil sample_disk) "missing.png"))
     = ["Error: [Errno 2] No such file or directory: 'missing.png'"%string].
Proof.
  apply (failure_prints_error_only (pil := ref_pil sample_disk) "missing.png"
           [FileOpen "missing.png"]
           "[Errno 2] No such file or directory: 'missing.png'").
  vm_compute. reflexivity.
Defined.

(** C6. When the colours of the histogram are pairwise different RGB
    colours, the [seen] test changes nothing: the run prints and returns
    exactly the sorted histogram filtered by [count > 100], formatted. *)
Theorem dedup_is_noop {pil : PIL} (image_path : string) (raw img : Image)
    (h : list Entry) :
  Image_open image_path = Ret raw ->
  Image_convert raw "RGB" = Ret img ->
  Image_getcolors img 1000000 = Ret (Some h) ->
  NoDup (map entry_color h) ->
  Forall (λ e, rgb8 (entry_color e)) h ->
  get_unique_colors image_path
  = (FileOpen image_path :: Stdout "Extracted Colors:"
       :: map Stdout (lines_spec h),
     Ret (Some (palette_spec h))).
Proof.
  intros Hopen Hconvert Hcolors Hnodup Hrgb.
  rewrite get_unique_colors_run.
  rewrite (pil_colors_ret _ _ _ _ Hopen Hconvert Hcolors).
  unfold run_on. simpl. by rewrite kept_filter_rgb.
Qed.

Lemma dedup_is_noop_witness :
  get_unique_colors (pil := ref_pil sample_disk) "blocks.png"
  = (FileOpen "blocks.png" :: Stdout "Extracted Colors:"
       :: map Stdout (lines_spec [(200, teal); (500, orange); (50, grey)]),
     Ret (Some (palette_spec [(200, teal); (500, orange); (50, grey)]))).
Proof.
  apply (dedup_is_noop (pil := ref_pil sample_disk)
           "blocks.png" blocks_image blocks_image).
  - vm_compute. reflexivity.
  - vm_compute. reflexivity.
  - vm_compute. reflexivity.
  - apply (bool_decide_unpack _). vm_compute. reflexivity.
  - repeat first [apply Forall_cons_2 | apply Forall_nil_2];
      cbv [rgb8 channel8 entry_color snd teal orange grey]; lia.
Defined.

(** C7. The run is a function of the path and of what PIL decodes from
    it: two runs on the same path, in whatever state the rest of the
    machine is, yield the same printed output and the same ordered palette
    as soon as the three PIL calls answer the same. *)
Theorem extraction_deterministic (pil1 pil2 : PIL) (image_path : string) :
  pil_colors (pil := pil1) image_path = pil_colors (pil := pil2) image_path ->
  get_unique_colors (pil := pil1) image_path
  = get_unique_colors (pil := pil2) image_path.
Proof.
  intros Hsame. rewrite !get_unique_colors_run. by rewrite Hsame.
Qed.

Lemma extraction_deterministic_witness :
  get_unique_colors (pil := ref_pil sample_disk) "blocks.png"
  = get_unique_colors
      (pil := ref_pil (<["later.png"%string := faint_image]> sample_disk))
      "blocks.png".
Proof.
  apply (extraction_deterministic (ref_pil sample_disk)
           (ref_pil (<["later.png"%string := faint_image]> sample_disk))
           "blocks.png").
  vm_compute. reflexivity.
Defined.

(** The extractor always starts by opening its argument. *)
Lemma get_unique_colors_opens {pil : PIL} (image_path : string) :
  exists t, fst (get_unique_colors image_path) = FileOpen image_path :: t.
Proof.
  rewrite get_unique_colors_run. unfold run_on.
  destruct (pil_colors image_path ≫= colors_sort); simpl; eauto.
Qed.

(** C8. With no image path on the command line the script prints the
    usage line on standard output and does nothing else: no file is opened
    (the extractor does not run), no exception escapes and the exit status
    is 0. *)
Theorem no_argument_prints_usage {pil : PIL} (argv : list string) :
  (length argv < 2)%nat ->
  main argv = ([Stdout "Usage: python extract_colors.py <image_path>"], Ret tt)
  /\ (forall path, FileOpen path ∉ fst (main argv))
  /\ exit_status (main argv) = 0.
Proof.
  intros Hlen. unfold main.
  assert (E : (Z.of_nat (length argv) <? 2) = true) by lia.
  rewrite E. split; [done|]. split; [|done].
  intros path Hin. simpl in Hin. apply list_elem_of_singleton in Hin. discriminate.
Qed.

Lemma no_argument_prints_usage_witness :
  main (pil := ref_pil sample_disk) ["extract_colors.py"%string]
  = ([Stdout "Usage: python extract_colors.py <image_path>"], Ret tt)
  /\ (forall path,
        FileOpen path ∉ fst (main (pil := ref_pil sample_disk)
                               ["extract_colors.py"%string]))
  /\ exit_status (main (pil := ref_pil sample_disk)
                    ["extract_colors.py"%string]) = 0.
Proof.
  apply (no_argument_prints_usage (pil := ref_pil sample_disk)
           ["extract_colors.py"%string]).
  simpl. lia.
Defined.

(** C10. An extraction that succeeds without any colour above the
    threshold prints the banner and returns the empty list, while a run
    whose [try] body raises returns [None]: the two results differ. *)
Theorem empty_palette_is_not_failure {pil : PIL} (ok_path bad_path : string)
    (raw img : Image) (h : list Entry) (t : list event) (msg : string) :
  Image_open ok_path = Ret raw ->
  Image_convert raw "RGB" = Ret img ->
  Image_getcolors img 1000000 = Ret (Some h) ->
  Forall (λ e, entry_count e <= 100) h ->
  try_body bad_path = (t, Raise msg) ->
  get_unique_colors ok_path
  = ([FileOpen ok_path; Stdout "Extracted Colors:"], Ret (Some []))
  /\ snd (get_unique_colors bad_path) = Ret None
  /\ snd (get_unique_colors ok_path) <> snd (get_unique_colors bad_path).
Proof.
  intros Hopen Hconvert Hcolors Hrare Hraise%try_body_raise.
  pose proof (kept_none h ∅ Hrare) as Hnone.
  rewrite !get_unique_colors_run.
  rewrite (pil_colors_ret _ _ _ _ Hopen Hconvert Hcolors).
  unfold run_on. rewrite Hraise. simpl. rewrite Hnone. simpl.
  repeat split; congruence.
Qed.

Lemma empty_palette_is_not_failure_witness :
  get_unique_colors (pil := ref_pil sample_disk) "faint.png"
  = ([FileOpen "faint.png"; Stdout "Extracted Colors:"], Ret (Some []))
  /\ snd (get_unique_colors (pil := ref_pil sample_disk) "missing.png") = Ret None
  /\ snd (get_unique_colors (pil := ref_pil sample_disk) "faint.png")
     <> snd (get_unique_colors (pil := ref_pil sample_disk) "missing.png").
Proof.
  apply (empty_palette_is_not_failure (pil := ref_pil sample_disk)
           "faint.png" "missing.png" faint_image faint_image
           [(100, teal); (100, orange)] [FileOpen "missing.png"]
           "[Errno 2] No such file or directory: 'missing.png'").
  - vm_compute. reflexivity.
  - vm_compute. reflexivity.
  - vm_compute. reflexivity.
  - repeat first [apply Forall_cons_2 | apply Forall_nil_2];
      cbv [entry_count fst]; lia.
  - vm_compute. reflexivity.
Defined.

(** ** Claims that rest on the PIL contract *)

Lemma hex_val_pattern (c : Color) :
  rgb8 c ->
  String.length (hex_val c) = 7%nat /\ matches_hex_pattern (hex_val c) = true.
Proof.
  intros Hc.
  destruct (hex_val_shape c Hc) as (a1 & a2 & b1 & b2 & d1 & d2 & E & _ & _ & _ & Hhex).
  rewrite E. split; [reflexivity|].
  unfold matches_hex_pattern. rewrite Hhex. reflexivity.
Qed.



(** ** An image with more colours than the cap *)

Lemma cube_color_rgb8 (i : nat) : rgb8b (cube_color i) = true.
Proof.
  apply rgb8b_spec. unfold cube_color, rgb8, channel8.
  pose proof (Z.mod_pos_bound (Z.of_nat i) 256).
  pose proof (Z.mod_pos_bound (Z.of_nat i / 256) 256).
  pose proof (Z.mod_pos_bound (Z.of_nat i / 65536) 256).
  lia.
Qed.

Lemma cube_color_inj (i j : nat) :
  Z.of_nat i < 16777216 -> Z.of_nat j < 16777216 ->
  cube_color i = cube_color j -> i = j.
Proof.
  unfold cube_color. intros Hi Hj [= H0 H1 H2].
  apply Nat2Z.inj. revert H0 H1 H2.
  generalize (Z.of_nat i) (Z.of_nat j) Hi Hj (Nat2Z.is_nonneg i) (Nat2Z.is_nonneg j).
  clear. intros a b Ha Hb Ha0 Hb0 H0 H1 H2.
  Z.div_mod_to_equations. lia.
Qed.

Lemma gradient_valid (n : nat) : ref_valid (gradient_image n) = true.
Proof.
  unfold ref_valid, gradient_image. simpl.
  rewrite length_map, length_seq. rewrite !andb_true_iff.
  rewrite !Z.leb_le, Z.eqb_eq. repeat split; try lia.
  apply forallb_forall. intros c Hc. apply in_map_iff in Hc as (i & <- & _).
  apply cube_color_rgb8.
Qed.

Lemma gradient_distinct (n : nat) :
  Z.of_nat n <= 16777216 ->
  distinct_colors (ref_pixels (gradient_image n)) = Z.of_nat n.
Proof.
  intros Hn. unfold distinct_colors, gradient_image. simpl.
  rewrite remove_dups_NoDup.
  - by rewrite length_map, length_seq.
  - apply (NoDup_fmap_2_strong cube_color).
    + intros i j Hi%elem_of_seq Hj%elem_of_seq. apply cube_color_inj; lia.
    + apply NoDup_seq.
Qed.

(** C9. An image with more than 1,000,000 distinct colours makes
    [getcolors(maxcolors=1000000)] return [None]; the sort then raises, the
    handler prints one [Error:] line and the function returns [None]: the
    script fails instead of working on a truncated histogram. *)
Theorem cap_exceeded_is_error {pil : PIL} {spec : PILSpec pil}
    (image_path : string) (raw img : Image) :
  Image_open image_path = Ret raw ->
  Image_convert raw "RGB" = Ret img ->
  1000000 < distinct_colors (Image_getdata img) ->
  Image_getcolors img 1000000 = Ret None
  /\ colors_sort None = Raise "'NoneType' object has no attribute 'sort'"
  /\ get_unique_colors image_path
     = ([FileOpen image_path;
         Stdout "Error: 'NoneType' object has no attribute 'sort'"],
        Ret None).
Proof.
  intros Hopen Hconvert Hmany.
  destruct (rgb_getcolors raw img 1000000 Hconvert) as (r & Hr & Hspec).
  destruct r as [h|]; simpl in Hspec; [lia|].
  split; [exact Hr|]. split; [reflexivity|].
  rewrite get_unique_colors_run.
  by rewrite (pil_colors_ret _ _ _ _ Hopen Hconvert Hr).
Qed.

Lemma cap_exceeded_is_error_witness :
  Image_getcolors (PIL := ref_pil gradient_disk)
    (gradient_image (N.to_nat 1000001)) 1000000 = Ret None
  /\ colors_sort None = Raise "'NoneType' object has no attribute 'sort'"
  /\ get_unique_colors (pil := ref_pil gradient_disk) "gradient.png"
     = ([FileOpen "gradient.png";
         Stdout "Error: 'NoneType' object has no attribute 'sort'"],
        Ret None).
Proof.
  apply (cap_exceeded_is_error (pil := ref_pil gradient_disk)
           (spec := ref_pil_spec gradient_disk)
           "gradient.png" (gradient_image (N.to_nat 1000001))
           (gradient_image (N.to_nat 1000001))).
  - unfold Image_open, ref_pil, ref_open, gradient_disk.
    by rewrite lookup_singleton_eq.
  - unfold Image_convert, ref_pil, ref_convert.
    rewrite decide_True by done. by rewrite gradient_valid.
  - unfold Image_getdata, ref_pil. rewrite gradient_distinct; lia.
Defined.

(** ** The model on concrete inputs *)

Example format_02x_samples :
  map format_02x [0; 10; 255; 256; -1; -255]
  = ["00"; "0a"; "ff"; "100"; "-1"; "-ff"]%string.
Proof. reflexivity. Qed.

Example str_int_samples :
  map str_int [0; 7; 101; 120000; -3] = ["0"; "7"; "101"; "120000"; "-3"]%string.
Proof. reflexivity. Qed.

Example hex_val_sample : hex_val (255, 128, 0) = "#ff8000"%string.
Proof. reflexivity. Qed.

(** Outside 0..255 two different triples can format to the same string,
    which is why the colours of a histogram are required to be RGB. *)
Example hex_val_collision : hex_val (291, 4, 5) = hex_val (18, 772, 5).
Proof. reflexivity. Qed.

(** Ties keep their order, larger counts come first. *)
Example sort_reverse_sample :
  sort_reverse entry_count [(200, teal); (500, orange); (200, grey); (500, teal)]
  = [(500, orange); (500, teal); (200, teal); (200, grey)].
Proof. reflexivity. Qed.

(** Any stable descending arrangement of [l] is the list [sort_reverse]
    computes. *)
Lemma sort_reverse_unique {A : Type} (key : A -> Z) (l l' : list A) :
  descending key l' ->
  (forall k, filter (λ a, key a = k) l' = filter (λ a, key a = k) l) ->
  l' = sort_reverse key l.
Proof.
  intros Hsorted Hstable. apply (descending_stable_unique key).
  - exact Hsorted.
  - apply sort_reverse_descending.
  - intros k. by rewrite sort_reverse_stable.
Qed.

(** A colour counted 500 times is listed before one counted 200 times,
    although the histogram has them the other way round. *)
Example blocks_run :
  get_unique_colors (pil := ref_pil sample_disk) "blocks.png"
  = ([FileOpen "blocks.png"; Stdout "Extracted Colors:";
      Stdout "#ff8000 (count: 500)"; Stdout "#008080 (count: 200)"],
     Ret (Some ["#ff8000"; "#008080"]%string)).
Proof. vm_compute. reflexivity. Qed.

Example solid_run :
  get_unique_colors (pil := ref_pil sample_disk) "solid.png"
  = ([FileOpen "solid.png"; Stdout "Extracted Colors:";
      Stdout "#ff8000 (count: 110)"],
     Ret (Some ["#ff8000"%string])).
Proof. vm_compute. reflexivity. Qed.

(** The [seen] test does fire on a list that repeats a colour. *)
Example repeated_color_run :
  get_unique_colors
    (pil := const_pil (Ret (Some [(300, teal); (400, orange); (250, teal)]))) "x"
  = ([FileOpen "x"; Stdout "Extracted Colors:";
      Stdout "#ff8000 (count: 400)"; Stdout "#008080 (count: 300)"],
     Ret (Some ["#ff8000"; "#008080"]%string)).
Proof. vm_compute. reflexivity. Qed.

Example none_run :
  get_unique_colors (pil := const_pil (Ret None)) "x"
  = ([FileOpen "x"; Stdout "Error: 'NoneType' object has no attribute 'sort'"],
     Ret None).
Proof. reflexivity. Qed.

Example main_with_path :
  main (pil := ref_pil sample_disk) ["extract_colors.py"; "faint.png"]%string
  = ([FileOpen "faint.png"; Stdout "Extracted Colors:"], Ret tt).
Proof. vm_compute. reflexivity. Qed.

Example main_with_missing_file :
  exit_status (main (pil := ref_pil sample_disk)
                 ["extract_colors.py"; "missing.png"]%string) = 0.
Proof. vm_compute. reflexivity. Qed.

(** * Further properties of the script *)

(** ** The function never raises, and [None] means failure *)

Lemma stdout_map_Stdout (lines : list string) : stdout (map Stdout lines) = lines.
Proof. induction lines as [|l lines IH]; [done|]. simpl. f_equal. exact IH. Qed.

Lemma opened_files_map_Stdout (lines : list string) :
  opened_files (map Stdout lines) = [].
Proof. induction lines as [|l lines IH]; [done|]. exact IH. Qed.

Lemma get_unique_colors_returns {pil : PIL} (image_path : string) :
  exists t r, get_unique_colors image_path = (t, Ret r).
Proof.
  rewrite get_unique_colors_run. unfold run_on.
  destruct (pil_colors image_path ≫= colors_sort); eauto.
Qed.

(** X1. [get_unique_colors] never lets an exception escape, and it returns
    [None] exactly when the body of its [try] raised: a caller can take
    [None] for failure and any list, also the empty one, for success. *)
Theorem none_iff_body_raised {pil : PIL} (image_path : string) :
  (exists r, snd (get_unique_colors image_path) = Ret r)
  /\ (snd (get_unique_colors image_path) = Ret None
      <-> exists t msg, try_body image_path = (t, Raise msg)).
Proof.
  rewrite get_unique_colors_run, try_body_run. unfold run_on.
  destruct (pil_colors image_path ≫= colors_sort) as [colors|msg]; simpl.
  - split; [eauto|]. split; [discriminate|]. intros (t & msg & [=]).
  - split; [eauto|]. split; [eauto|done].
Qed.

(** X2. Whatever the command line and whatever PIL does, the script ends
    with exit status 0: a missing or undecodable file is reported on
    standard output only, never through the exit status. *)
Theorem main_exit_status_zero {pil : PIL} (argv : list string) :
  exit_status (main argv) = 0.
Proof.
  unfold main. destruct (Z.of_nat (length argv) <? 2) eqn:Hlen; [done|].
  destruct argv as [|prog [|image_path rest]]; [by vm_compute in Hlen..|].
  simpl. destruct (get_unique_colors_returns image_path) as (t & r & ->).
  reflexivity.
Qed.


(** X4. The first printed line tells the two outcomes apart: it is the
    banner exactly when a palette is returned; otherwise the only printed
    line starts with [Error: ], which is never the banner. *)
Theorem first_line_tells_outcome {pil : PIL} (image_path : string) :
  ((exists palette, snd (get_unique_colors image_path) = Ret (Some palette))
   <-> head (stdout (fst (get_unique_colors image_path)))
       = Some "Extracted Colors:"%string)
  /\ (snd (get_unique_colors image_path) = Ret None
      <-> exists msg, stdout (fst (get_unique_colors image_path))
                      = ["Error: " +:+ msg]).
Proof.
  rewrite get_unique_colors_run. unfold run_on.
  destruct (pil_colors image_path ≫= colors_sort) as [colors|msg]; simpl.
  - split; [split; eauto|]. split; [discriminate|]. intros (msg & [=]).
  - split; [|split; eauto].
    split; [intros (palette & [=])|discriminate].
Qed.

(** X5. A run opens the file it was given, once, and no other file,
    whether it succeeds or fails. *)
Theorem opens_only_its_argument {pil : PIL} (image_path : string) :
  opened_files (fst (get_unique_colors image_path)) = [image_path].
Proof.
  rewrite get_unique_colors_run. unfold run_on.
  destruct (pil_colors image_path ≫= colors_sort) as [colors|msg]; simpl.
  - by rewrite opened_files_map_Stdout.
  - done.
Qed.

(** ** The palette of an arbitrary histogram *)

(** What the loop accepts carries pairwise different hex codes, none of
    them in the set it started with. *)
Lemma kept_fresh (colors : list Entry) (seen : gset string) (e : Entry) :
  e ∈ kept colors seen -> entry_hex e ∉ seen.
Proof.
  revert seen. induction colors as [|e0 rest IH]; intros seen; cbn [kept].
  - by intros ?%not_elem_of_nil.
  - destruct (decide (hex_val (entry_color e0) ∉ seen)) as [Hnew|_];
      [destruct (100 <? entry_count e0)|]; [|by apply IH..].
    intros [->|Hin]%elem_of_cons; [exact Hnew|].
    apply IH in Hin. set_solver.
Qed.

Lemma kept_NoDup (colors : list Entry) (seen : gset string) :
  NoDup (map entry_hex (kept colors seen)).
Proof.
  revert seen. induction colors as [|e0 rest IH]; intros seen; cbn [kept].
  - constructor.
  - destruct (decide (hex_val (entry_color e0) ∉ seen)) as [Hnew|_];
      [destruct (100 <? entry_count e0)|]; [|by apply IH..].
    cbn [map]. constructor; [|by apply IH].
    intros (e & Heq & Hin)%list_elem_of_fmap.
    apply kept_fresh in Hin. unfold entry_hex in Heq at 1. set_solver.
Qed.

Lemma kept_elem (colors : list Entry) (seen : gset string) (s : string) :
  s ∈ map entry_hex (kept colors seen)
  <-> ((s ∉ seen)
       /\ exists e, e ∈ colors /\ entry_hex e = s /\ 100 < entry_count e).
Proof.
  revert seen. induction colors as [|e0 rest IH]; intros seen; cbn [kept].
  - split; [by intros ?%not_elem_of_nil|].
    by intros (_ & e & ?%not_elem_of_nil & _).
  - destruct (decide (hex_val (entry_color e0) ∉ seen)) as [Hnew|Hold];
      [destruct (100 <? entry_count e0) eqn:Hcount|].
    + cbn [map]. rewrite elem_of_cons, IH. split.
      * intros [->|(Hs & e & He & Heq & Hn)].
        -- split; [exact Hnew|]. exists e0. split; [left|]. split; [done|lia].
        -- split; [|exists e; split; [by right|done]].
           intros Hin. apply Hs. apply elem_of_union. by right.
      * intros (Hs & e & He & Heq & Hn).
        destruct (decide (s = entry_hex e0)) as [->|Hne]; [by left|right].
        split.
        { rewrite not_elem_of_union, not_elem_of_singleton. by split. }
        apply elem_of_cons in He as [->|He]; [done|]. by exists e.
    + rewrite IH. split.
      * intros (Hs & e & He & Heq & Hn). split; [done|].
        exists e. split; [by right|done].
      * intros (Hs & e & He & Heq & Hn). split; [done|].
        apply elem_of_cons in He as [->|He]; [lia|]. by exists e.
    + rewrite IH. split.
      * intros (Hs & e & He & Heq & Hn). split; [done|].
        exists e. split; [by right|done].
      * intros (Hs & e & He & Heq & Hn). split; [done|].
        apply elem_of_cons in He as [->|He]; [|by exists e].
        exfalso. apply Hold. by rewrite <- Heq in Hs.
Qed.

(** X6. The returned palette never repeats a hex code, also when the list
    that [getcolors] returned lists a colour more than once. *)
Theorem palette_has_no_duplicates {pil : PIL} (image_path : string)
    (raw img : Image) (h : list Entry) :
  Image_open image_path = Ret raw ->
  Image_convert raw "RGB" = Ret img ->
  Image_getcolors img 1000000 = Ret (Some h) ->
  exists palette : list string,
    snd (get_unique_colors image_path) = Ret (Some palette) /\ NoDup palette.
Proof.
  intros Hopen Hconvert Hcolors.
  exists (map entry_hex (kept (sort_reverse entry_count h) ∅)). split.
  - rewrite get_unique_colors_run.
    by rewrite (pil_colors_ret _ _ _ _ Hopen Hconvert Hcolors).
  - apply kept_NoDup.
Qed.

Lemma palette_has_no_duplicates_witness :
  exists palette : list string,
    snd (get_unique_colors
           (pil := const_pil (Ret (Some [(300, teal); (400, orange); (250, teal)])))
           "x")
    = Ret (Some palette) /\ NoDup palette.
Proof.
  apply (palette_has_no_duplicates
           (pil := const_pil (Ret (Some [(300, teal); (400, orange); (250, teal)])))
           "x" tt tt [(300, teal); (400, orange); (250, teal)]);
    reflexivity.
Defined.

(** X7. For any list that [getcolors] returns, a string is in the palette
    if and only if it is the hex code of some entry counted more than 100
    times: no such entry is lost and nothing else gets in. *)
Theorem palette_members {pil : PIL} (image_path : string)
    (raw img : Image) (h : list Entry) :
  Image_open image_path = Ret raw ->
  Image_convert raw "RGB" = Ret img ->
  Image_getcolors img 1000000 = Ret (Some h) ->
  exists palette : list string,
    snd (get_unique_colors image_path) = Ret (Some palette)
    /\ forall s, s ∈ palette
                 <-> exists count color,
                       (count, color) ∈ h /\ hex_val color = s /\ 100 < count.
Proof.
  intros Hopen Hconvert Hcolors.
  exists (map entry_hex (kept (sort_reverse entry_count h) ∅)). split.
  - rewrite get_unique_colors_run.
    by rewrite (pil_colors_ret _ _ _ _ Hopen Hconvert Hcolors).
  - intros s. rewrite kept_elem. split.
    + intros (_ & [n c] & He & Heq & Hn).
      rewrite (sort_reverse_perm entry_count h) in He. by exists n, c.
    + intros (n & c & He & Heq & Hn). split; [apply not_elem_of_empty|].
      exists (n, c). by rewrite (sort_reverse_perm entry_count h).
Qed.

Lemma palette_members_witness :
  exists palette : list string,
    snd (get_unique_colors (pil := ref_pil sample_disk) "blocks.png")
    = Ret (Some palette)
    /\ forall s, s ∈ palette
                 <-> exists count color,
                       (count, color) ∈ [(200, teal); (500, orange); (50, grey)]
                       /\ hex_val color = s /\ 100 < count.
Proof.
  apply (palette_members (pil := ref_pil sample_disk)
           "blocks.png" blocks_image blocks_image
           [(200, teal); (500, orange); (50, grey)]);
    vm_compute; reflexivity.
Defined.

(** ** Small images and the size of the palette *)

Lemma remove_dups_length {A : Type} `{!EqDecision A} (l : list A) :
  (length (remove_dups l) <= length l)%nat.
Proof.
  apply submseteq_length, NoDup_submseteq; [apply NoDup_remove_dups|].
  intros x. by rewrite elem_of_remove_dups.
Qed.

Lemma occurrences_le_length (c : Color) (data : list Color) :
  occurrences c data <= Z.of_nat (length data).
Proof.
  unfold occurrences. pose proof (length_filter (c =.) data). lia.
Qed.

(** Removing every pixel of colour [c] takes [occurrences c] pixels away
    and leaves the count of every other colour alone. *)
Lemma occurrences_split (c : Color) (data : list Color) :
  Z.of_nat (length data)
  = occurrences c data + Z.of_nat (length (filter (λ p, ~ c = p) data)).
Proof.
  unfold occurrences.
  pose proof (Permutation_length (filter_app_complement (c =.) data)) as Hlen.
  rewrite length_app in Hlen. lia.
Qed.

Lemma occurrences_other (c c' : Color) (data : list Color) :
  c' <> c ->
  occurrences c' (filter (λ p, ~ c = p) data) = occurrences c' data.
Proof.
  intros Hne. unfold occurrences. do 2 f_equal.
  apply list_filter_filter_l. intros p <-. congruence.
Qed.

(** Colours that each occur more than 100 times need 101 pixels each. *)
Lemma frequent_colors_bound (l : list Entry) (data : list Color) :
  NoDup (map entry_color l) ->
  (forall e, e ∈ l -> 100 < occurrences (entry_color e) data) ->
  101 * Z.of_nat (length l) <= Z.of_nat (length data).
Proof.
  revert data. induction l as [|e l IH]; intros data Hnodup Hfreq.
  - simpl. lia.
  - cbn [map] in Hnodup. apply NoDup_cons in Hnodup as [Hhead Hnodup].
    pose proof (Hfreq e ltac:(left)) as He.
    rewrite (occurrences_split (entry_color e) data).
    assert (IH' : 101 * Z.of_nat (length l)
                  <= Z.of_nat (length (filter (λ p, ~ entry_color e = p) data))).
    { apply IH; [exact Hnodup|]. intros e' He'.
      rewrite occurrences_other.
      - apply Hfreq. by right.
      - intros Heq. apply Hhead. rewrite <- Heq.
        apply list_elem_of_fmap. by exists e'. }
    cbn [length]. lia.
Qed.

(** X8. An image of at most 100 pixels always gives the empty palette:
    the run prints the banner alone and returns the empty list, whatever
    the colours are. *)
Theorem small_image_empty_palette {pil : PIL} {spec : PILSpec pil}
    (image_path : string) (raw img : Image) :
  Image_open image_path = Ret raw ->
  Image_convert raw "RGB" = Ret img ->
  fst (Image_size img) * snd (Image_size img) <= 100 ->
  get_unique_colors image_path
  = ([FileOpen image_path; Stdout "Extracted Colors:"], Ret (Some [])).
Proof.
  intros Hopen Hconvert Hsmall.
  destruct (rgb_size raw img Hconvert) as (_ & _ & Hlen).
  destruct (rgb_getcolors raw img 1000000 Hconvert) as (r & Hr & Hspec).
  destruct r as [h|]; simpl in Hspec.
  - destruct Hspec as (_ & _ & Helem).
    rewrite get_unique_colors_run.
    rewrite (pil_colors_ret _ _ _ _ Hopen Hconvert Hr).
    unfold run_on. simpl. rewrite kept_none; [done|].
    apply Forall_forall. intros [n c] He. apply Helem in He as [_ ->].
    pose proof (occurrences_le_length c (Image_getdata img)).
    unfold entry_count. simpl. lia.
  - exfalso. unfold distinct_colors in Hspec.
    pose proof (remove_dups_length (Image_getdata img)). lia.
Qed.

Lemma small_image_empty_palette_witness :
  get_unique_colors (pil := ref_pil tiny_disk) "tiny.png"
  = ([FileOpen "tiny.png"; Stdout "Extracted Colors:"], Ret (Some [])).
Proof.
  apply (small_image_empty_palette (pil := ref_pil tiny_disk)
           (spec := ref_pil_spec tiny_disk) "tiny.png" tiny_image tiny_image).
  - vm_compute. reflexivity.
  - vm_compute. reflexivity.
  - simpl. lia.
Defined.

(** X9. Every palette entry stands for more than 100 pixels of its own:
    an image of [W * H] pixels never yields more than [W * H / 101]
    palette entries. *)
Theorem palette_size_bound {pil : PIL} {spec : PILSpec pil}
    (image_path : string) (raw img : Image) (h : list Entry) :
  Image_open image_path = Ret raw ->
  Image_convert raw "RGB" = Ret img ->
  Image_getcolors img 1000000 = Ret (Some h) ->
  exists palette : list string,
    snd (get_unique_colors image_path) = Ret (Some palette)
    /\ 101 * Z.of_nat (length palette)
       <= fst (Image_size img) * snd (Image_size img).
Proof.
  intros Hopen Hconvert Hcolors.
  destruct (histogram_colors _ _ _ _ Hconvert Hcolors) as [Hnodup Hrgb].
  destruct (getcolors_answer _ _ _ _ Hconvert Hcolors) as (_ & _ & Helem).
  destruct (rgb_size raw img Hconvert) as (_ & _ & Hlen).
  exists (map entry_hex (kept (sort_reverse entry_count h) ∅)). split.
  - rewrite get_unique_colors_run.
    by rewrite (pil_colors_ret _ _ _ _ Hopen Hconvert Hcolors).
  - rewrite length_map, kept_filter_rgb by done. rewrite <- Hlen.
    unfold accepted_spec. apply frequent_colors_bound.
    + assert (Hsorted : NoDup (map entry_color (sort_reverse entry_count h)))
        by (by rewrite (sort_reverse_perm entry_count h)).
      apply (sublist_NoDup _ (map entry_color (sort_reverse entry_count h)));
        [exact Hsorted|].
      apply (fmap_sublist entry_color), sublist_filter.
    + intros [n c] [Hn He]%list_elem_of_filter.
      rewrite (sort_reverse_perm entry_count h) in He.
      apply Helem in He as [_ ->]. exact Hn.
Qed.

Lemma palette_size_bound_witness :
  exists palette : list string,
    snd (get_unique_colors (pil := ref_pil sample_disk) "blocks.png")
    = Ret (Some palette)
    /\ 101 * Z.of_nat (length palette)
       <= fst (Image_size (PIL := ref_pil sample_disk) blocks_image)
          * snd (Image_size (PIL := ref_pil sample_disk) blocks_image).
Proof.
  apply (palette_size_bound (pil := ref_pil sample_disk)
           (spec := ref_pil_spec sample_disk)
           "blocks.png" blocks_image blocks_image
           [(200, teal); (500, orange); (50, grey)]);
    vm_compute; reflexivity.
Defined.

(** ** The order in which PIL lists the histogram *)

(** With pairwise different keys at most one element has a given key. *)
Lemma filter_key_short {A : Type} (key : A -> Z) (k : Z) (l : list A) :
  NoDup (map key l) -> (length (filter (λ a, key a = k) l) <= 1)%nat.
Proof.
  intros Hnodup.
  assert (Hsub : NoDup (map key (filter (λ a, key a = k) l))).
  { apply (sublist_NoDup _ (map key l)); [exact Hnodup|].
    apply (fmap_sublist key), sublist_filter. }
  destruct (NoDup_all_same k (map key (filter (λ a, key a = k) l)) Hsub) as [E|E].
  - intros x (a & -> & [Ha _]%list_elem_of_filter)%list_elem_of_fmap. exact Ha.
  - apply (f_equal length) in E. rewrite length_map in E. simpl in E. lia.
  - apply (f_equal length) in E. rewrite length_map in E. simpl in E. lia.
Qed.

Lemma Permutation_short {A : Type} (l1 l2 : list A) :
  l1 ≡ₚ l2 -> (length l1 <= 1)%nat -> l1 = l2.
Proof.
  intros Hperm Hlen. destruct l1 as [|x [|y l1]]; [| |simpl in Hlen; lia].
  - by apply Permutation_nil_l.
  - by apply Permutation_singleton_l.
Qed.

(** Without ties the sorted list does not depend on the order of the
    input. *)
Lemma sort_reverse_order_free {A : Type} (key : A -> Z) (l1 l2 : list A) :
  l1 ≡ₚ l2 -> NoDup (map key l1) ->
  sort_reverse key l1 = sort_reverse key l2.
Proof.
  intros Hperm Hnodup. apply (descending_stable_unique key).
  - apply sort_reverse_descending.
  - apply sort_reverse_descending.
  - intros k. rewrite !sort_reverse_stable. apply Permutation_short.
    + by rewrite Hperm.
    + by apply filter_key_short.
Qed.

(** X10. [getcolors] returns an unsorted list; as long as no two entries
    have the same count, the order in which it lists them does not show:
    two runs whose histograms are permutations of each other print the
    same lines and return the same palette. *)
Theorem histogram_order_irrelevant (pil1 pil2 : PIL) (image_path : string)
    (h1 h2 : list Entry) :
  pil_colors (pil := pil1) image_path = Ret (Some h1) ->
  pil_colors (pil := pil2) image_path = Ret (Some h2) ->
  h1 ≡ₚ h2 ->
  NoDup (map entry_count h1) ->
  get_unique_colors (pil := pil1) image_path
  = get_unique_colors (pil := pil2) image_path.
Proof.
  intros H1 H2 Hperm Hnodup. rewrite !get_unique_colors_run, H1, H2.
  unfold run_on. simpl.
  by rewrite (sort_reverse_order_free entry_count h1 h2 Hperm Hnodup).
Qed.

Lemma histogram_order_irrelevant_witness :
  get_unique_colors
    (pil := const_pil (Ret (Some [(200, teal); (500, orange); (50, grey)]))) "x"
  = get_unique_colors
      (pil := const_pil (Ret (Some [(50, grey); (500, orange); (200, teal)]))) "x".
Proof.
  apply (histogram_order_irrelevant
           (const_pil (Ret (Some [(200, teal); (500, orange); (50, grey)])))
           (const_pil (Ret (Some [(50, grey); (500, orange); (200, teal)])))
           "x"
           [(200, teal); (500, orange); (50, grey)]
           [(50, grey); (500, orange); (200, teal)]).
  - reflexivity.
  - reflexivity.
  - etrans; [apply perm_skip, perm_swap|].
    etrans; [apply perm_swap|]. apply perm_skip, perm_swap.
  - apply (bool_decide_unpack _). vm_compute. reflexivity.
Defined.

(** With tied counts the order of the histogram does show. *)
Example tie_order_shows :
  get_unique_colors
    (pil := const_pil (Ret (Some [(200, teal); (200, orange)]))) "x"
  <> get_unique_colors
       (pil := const_pil (Ret (Some [(200, orange); (200, teal)]))) "x".
Proof. vm_compute. discriminate. Qed.

(** ** Counting the palette *)

Lemma filter_colors_of_entries (h : list Entry) (data : list Color) :
  (forall e, e ∈ h -> entry_count e = occurrences (entry_color e) data) ->
  map entry_color (filter (λ e, 100 < entry_count e) h)
  = filter (λ c, 100 < occurrences c data) (map entry_color h).
Proof.
  induction h as [|e h IH]; intros Hcount; [done|].
  cbn [map]. rewrite !filter_cons.
  rewrite <- (Hcount e) by left.
  case_decide; cbn [map]; rewrite IH; try done;
    intros e' He'; apply Hcount; by right.
Qed.

(** X11. The palette has exactly one entry for each distinct colour of the
    image that occurs more than 100 times. *)
Theorem palette_counts_frequent_colors {pil : PIL} {spec : PILSpec pil}
    (image_path : string) (raw img : Image) (h : list Entry) :
  Image_open image_path = Ret raw ->
  Image_convert raw "RGB" = Ret img ->
  Image_getcolors img 1000000 = Ret (Some h) ->
  exists palette : list string,
    snd (get_unique_colors image_path) = Ret (Some palette)
    /\ length palette
       = length (filter (λ c, 100 < occurrences c (Image_getdata img))
                   (remove_dups (Image_getdata img))).
Proof.
  intros Hopen Hconvert Hcolors.
  destruct (histogram_colors _ _ _ _ Hconvert Hcolors) as [Hnodup Hrgb].
  destruct (getcolors_answer _ _ _ _ Hconvert Hcolors) as (_ & _ & Helem).
  exists (map entry_hex (kept (sort_reverse entry_count h) ∅)). split.
  - rewrite get_unique_colors_run.
    by rewrite (pil_colors_ret _ _ _ _ Hopen Hconvert Hcolors).
  - rewrite length_map, kept_filter_rgb by done. unfold accepted_spec.
    rewrite (sort_reverse_perm entry_count h).
    rewrite <- (length_map entry_color).
    rewrite (filter_colors_of_entries h (Image_getdata img)).
    + apply Permutation_length, filter_Permutation.
      apply NoDup_Permutation; [exact Hnodup|apply NoDup_remove_dups|].
      intros c. rewrite elem_of_remove_dups. split.
      * intros ([n c'] & -> & He)%list_elem_of_fmap. by apply Helem in He as [Hc _].
      * intros Hc. apply list_elem_of_fmap.
        exists (occurrences c (Image_getdata img), c). split; [done|].
        by apply Helem.
    + intros [n c] He. by apply Helem in He as [_ ->].
Qed.

Lemma palette_counts_frequent_colors_witness :
  exists palette : list string,
    snd (get_unique_colors (pil := ref_pil sample_disk) "blocks.png")
    = Ret (Some palette)
    /\ length palette
       = length (filter (λ c, 100 < occurrences c
                                  (Image_getdata (PIL := ref_pil sample_disk)
                                     blocks_image))
                   (remove_dups (Image_getdata (PIL := ref_pil sample_disk)
                                   blocks_image))).
Proof.
  apply (palette_counts_frequent_colors (pil := ref_pil sample_disk)
           (spec := ref_pil_spec sample_disk)
           "blocks.png" blocks_image blocks_image
           [(200, teal); (500, orange); (50, grey)]);
    vm_compute; reflexivity.
Defined.

(** X12. On RGB colours the formatting of line 18 loses nothing: two
    colours get the same hex code only if they are the same colour, so
    testing the hex code against [seen] is testing the colour. *)
Theorem hex_code_identifies_color (color color' : Color) :
  rgb8 color -> rgb8 color' ->
  (hex_val color = hex_val color' <-> color = color').
Proof.
  intros Hc Hc'. split; [by apply hex_val_inj|by intros ->].
Qed.

Lemma hex_code_identifies_color_witness :
  hex_val teal = hex_val orange <-> teal = orange.
Proof.
  apply (hex_code_identifies_color teal orange);
    cbv [rgb8 channel8 teal orange]; lia.
Defined.

(** * The formats, pinned to the colour and to the count *)

Lemma format_02x_digits (x : Z) :
  channel8 x ->
  format_02x x
  = String (hex_digit (x / 16)) (String (hex_digit (x mod 16)) EmptyString).
Proof.
  intros Hx. apply String.eqb_eq.
  apply (all_channels_spec two_digits); [vm_compute; reflexivity|exact Hx].
Qed.

(** On RGB colours line 18 writes the [#rrggbb] code of the colour. *)
Lemma hex_val_rrggbb (color : Color) : rgb8 color -> hex_val color = rrggbb color.
Proof.
  destruct color as [[r g] b]. intros (Hr & Hg & Hb). unfold hex_val, rrggbb.
  rewrite !format_02x_digits by done. reflexivity.
Qed.

(** [str] writes the decimal numeral of the integer. *)
Lemma read_int_str_int (n : Z) : read_int (str_int n) = Some n.
Proof.
  unfold read_int, str_int.
  rewrite DecimalString.NilZero.isi.
  - simpl. by rewrite DecimalZ.of_to.
  - destruct n as [|p|p]; try discriminate.
    intros [= Hp]. by apply DecimalPos.Unsigned.to_uint_nonnil in Hp.
  - destruct n as [|p|p]; try discriminate.
    intros [= Hp]. by apply DecimalPos.Unsigned.to_uint_nonnil in Hp.
Qed.

(** C1. For an image of width [W] and height [H] whose pixels all have the
    colour [c], with [W * H > 100], the run prints the banner and one line,
    and returns a palette of exactly one entry. The entry is the lowercase
    [#rrggbb] code of [c], digit by digit, and the number printed after
    it, read back as a decimal numeral, is [W * H]. *)
Theorem solid_image_palette {pil : PIL} {spec : PILSpec pil}
    (image_path : string) (raw img : Image) (W H : Z) (c : Color) :
  Image_open image_path = Ret raw ->
  Image_convert raw "RGB" = Ret img ->
  Image_size img = (W, H) ->
  Forall (λ p, p = c) (Image_getdata img) ->
  100 < W * H ->
  get_unique_colors image_path
  = ([FileOpen image_path; Stdout "Extracted Colors:";
      Stdout (rrggbb c +:+ " (count: " +:+ str_int (W * H) +:+ ")")],
     Ret (Some [rrggbb c]))
  /\ read_int (str_int (W * H)) = Some (W * H)
  /\ matches_hex_pattern (rrggbb c) = true.
Proof.
  intros Hopen Hconvert Hsize Hsolid Hbig.
  destruct (rgb_size raw img Hconvert) as (_ & _ & Hlen).
  rewrite Hsize in Hlen. simpl in Hlen.
  assert (Hcolors : Image_getcolors img 1000000 = Ret (Some [(W * H, c)])).
  { rewrite <- Hlen. apply (solid_histogram raw); [done|lia|done|lia]. }
  assert (Hc : rgb8 c).
  { pose proof (rgb_channels raw img Hconvert) as Hrgb.
    destruct (Image_getdata img) as [|p data]; [simpl in Hlen; lia|].
    apply Forall_cons in Hrgb as [Hp _]. apply Forall_cons in Hsolid as [<- _].
    exact Hp. }
  rewrite <- (hex_val_rrggbb c Hc). split; [|split].
  - rewrite get_unique_colors_run.
    rewrite (pil_colors_ret _ _ _ _ Hopen Hconvert Hcolors).
    unfold run_on. simpl. unfold entry_color, entry_count. simpl.
    rewrite decide_True by apply not_elem_of_empty.
    replace (100 <? W * H) with true by lia. reflexivity.
  - apply read_int_str_int.
  - by apply hex_val_pattern.
Qed.

Lemma solid_image_palette_witness :
  get_unique_colors (pil := ref_pil sample_disk) "solid.png"
  = ([FileOpen "solid.png"; Stdout "Extracted Colors:";
      Stdout "#ff8000 (count: 110)"],
     Ret (Some ["#ff8000"%string]))
  /\ read_int "110" = Some 110
  /\ matches_hex_pattern "#ff8000" = true.
Proof.
  refine (solid_image_palette (pil := ref_pil sample_disk)
            (spec := ref_pil_spec sample_disk)
            "solid.png" (solid_image 11 10 orange) (solid_image 11 10 orange)
            11 10 orange _ _ _ _ _).
  - vm_compute. reflexivity.
  - vm_compute. reflexivity.
  - reflexivity.
  - apply Forall_forall. intros p Hp.
    by apply (elem_of_replicate (Z.to_nat (11 * 10)) orange p) in Hp as [-> _].
  - lia.
Defined.

(** * The threshold, and the cap on the number of colours *)

Lemma occurrences_NoDup (c : Color) (data : list Color) :
  NoDup data -> occurrences c data <= 1.
Proof.
  intros Hnodup. unfold occurrences.
  destruct (NoDup_all_same c (filter (c =.) data)) as [E|E].
  - by apply NoDup_filter.
  - by intros x [-> _]%list_elem_of_filter.
  - rewrite E. simpl. lia.
  - rewrite E. simpl. lia.
Qed.

Lemma gradient_NoDup (n : nat) :
  Z.of_nat n <= 16777216 -> NoDup (ref_pixels (gradient_image n)).
Proof.
  intros Hn. simpl. apply (NoDup_fmap_2_strong cube_color).
  - intros i j Hi%elem_of_seq Hj%elem_of_seq. apply cube_color_inj; lia.
  - apply NoDup_seq.
Qed.

(** Past the cap [getcolors] answers [None] and the run is the error run. *)
Lemma over_cap_run {pil : PIL} {spec : PILSpec pil} (image_path : string)
    (raw img : Image) :
  Image_open image_path = Ret raw ->
  Image_convert raw "RGB" = Ret img ->
  1000000 < distinct_colors (Image_getdata img) ->
  get_unique_colors image_path
  = ([FileOpen image_path;
      Stdout "Error: 'NoneType' object has no attribute 'sort'"],
     Ret None).
Proof.
  intros Hopen Hconvert Hmany.
  destruct (rgb_getcolors raw img 1000000 Hconvert) as (r & Hr & Hspec).
  destruct r as [h|]; simpl in Hspec; [lia|].
  rewrite get_unique_colors_run.
  by rewrite (pil_colors_ret _ _ _ _ Hopen Hconvert Hr).
Qed.

Lemma gradient_run :
  get_unique_colors (pil := ref_pil gradient_disk) "gradient.png"
  = ([FileOpen "gradient.png";
      Stdout "Error: 'NoneType' object has no attribute 'sort'"],
     Ret None).
Proof.
  apply (over_cap_run (spec := ref_pil_spec gradient_disk) "gradient.png"
           (gradient_image (N.to_nat 1000001))
           (gradient_image (N.to_nat 1000001))).
  - unfold Image_open, ref_pil, ref_open, gradient_disk.
    by rewrite lookup_singleton_eq.
  - unfold Image_convert, ref_pil, ref_convert.
    rewrite decide_True by done. by rewrite gradient_valid.
  - unfold Image_getdata, ref_pil. rewrite gradient_distinct; lia.
Qed.

(** C2, as stated, fails on an image that decodes but has more distinct
    colours than the cap: in the 1,000,001-pixel image whose pixels are all
    different, [Image.open] and [convert] succeed and every colour occurs
    once, yet the run returns [None]: there is no palette, empty or not. *)
Lemma palette_threshold_counterexample :
  Image_open (PIL := ref_pil gradient_disk) "gradient.png"
  = Ret (gradient_image (N.to_nat 1000001))
  /\ Image_convert (PIL := ref_pil gradient_disk)
       (gradient_image (N.to_nat 1000001)) "RGB"
     = Ret (gradient_image (N.to_nat 1000001))
  /\ (forall c, occurrences c (ref_pixels (gradient_image (N.to_nat 1000001)))
                <= 100)
  /\ snd (get_unique_colors (pil := ref_pil gradient_disk) "gradient.png")
     = Ret None
  /\ ~ (exists palette : list string,
          snd (get_unique_colors (pil := ref_pil gradient_disk) "gradient.png")
          = Ret (Some palette)
          /\ (forall c, rgb8 c ->
                (hex_val c ∈ palette
                 <-> 100 < occurrences c
                             (ref_pixels (gradient_image (N.to_nat 1000001)))))
          /\ ((forall c, occurrences c
                           (ref_pixels (gradient_image (N.to_nat 1000001)))
                         <= 100)
              -> palette = [])).
Proof.
  split; [|split; [|split; [|split]]].
  - unfold Image_open, ref_pil, ref_open, gradient_disk.
    by rewrite lookup_singleton_eq.
  - unfold Image_convert, ref_pil, ref_convert.
    rewrite decide_True by done. by rewrite gradient_valid.
  - intros c.
    pose proof (occurrences_NoDup c (ref_pixels (gradient_image (N.to_nat 1000001))))
      as Hone.
    etrans; [apply Hone, gradient_NoDup; lia|lia].
  - exact (f_equal snd gradient_run).
  - intros (palette & Hsome & _).
    rewrite (f_equal snd gradient_run) in Hsome. discriminate Hsome.
Qed.

(** C2, amended. For an image that decodes and holds at most 1,000,000
    distinct colours, a palette is returned, and an RGB colour has its hex
    code in it if and only if it occurs more than 100 times among the
    pixels; when no colour occurs more than 100 times the palette is the
    empty list. *)
Theorem palette_threshold {pil : PIL} {spec : PILSpec pil}
    (image_path : string) (raw img : Image) :
  Image_open image_path = Ret raw ->
  Image_convert raw "RGB" = Ret img ->
  distinct_colors (Image_getdata img) <= 1000000 ->
  exists palette : list string,
    snd (get_unique_colors image_path) = Ret (Some palette)
    /\ (forall c, rgb8 c ->
          (hex_val c ∈ palette <-> 100 < occurrences c (Image_getdata img)))
    /\ ((forall c, occurrences c (Image_getdata img) <= 100) -> palette = []).
Proof.
  intros Hopen Hconvert Hcap.
  destruct (rgb_getcolors raw img 1000000 Hconvert) as (r & Hcolors & Hspec).
  destruct r as [h|]; [clear Hspec|simpl in Hspec; lia].
  destruct (histogram_colors _ _ _ _ Hconvert Hcolors) as [Hnodup Hrgb].
  destruct (getcolors_answer _ _ _ _ Hconvert Hcolors) as (_ & _ & Helem).
  exists (map entry_hex (kept (sort_reverse entry_count h) ∅)).
  split; [|split].
  - rewrite get_unique_colors_run.
    by rewrite (pil_colors_ret _ _ _ _ Hopen Hconvert Hcolors).
  - intros c Hc. rewrite kept_filter_rgb by done. unfold accepted_spec.
    rewrite Forall_forall in Hrgb. split.
    + intros Hin. apply list_elem_of_fmap in Hin as ([n c'] & Heq & He).
      apply list_elem_of_filter in He as [Hn He].
      rewrite (sort_reverse_perm entry_count h) in He.
      apply hex_val_inj in Heq; [|exact Hc|exact (Hrgb _ He)].
      simpl in Heq. subst c'. apply Helem in He as [_ ->]. exact Hn.
    + intros Hn. apply list_elem_of_fmap.
      exists (occurrences c (Image_getdata img), c). split; [done|].
      apply list_elem_of_filter. split; [exact Hn|].
      rewrite (sort_reverse_perm entry_count h). apply Helem.
      split; [|done]. apply occurrences_pos_elem. lia.
  - intros Hrare. rewrite kept_none; [done|].
    apply Forall_forall. intros [n c] He.
    apply Helem in He as [_ ->]. apply Hrare.
Qed.

Lemma palette_threshold_witness :
  exists palette : list string,
    snd (get_unique_colors (pil := ref_pil sample_disk) "blocks.png")
    = Ret (Some palette)
    /\ (forall c, rgb8 c ->
          (hex_val c ∈ palette
           <-> 100 < occurrences c
                       (Image_getdata (PIL := ref_pil sample_disk) blocks_image)))
    /\ ((forall c, occurrences c
                     (Image_getdata (PIL := ref_pil sample_disk) blocks_image)
                   <= 100) -> palette = []).
Proof.
  apply (palette_threshold (pil := ref_pil sample_disk)
           (spec := ref_pil_spec sample_disk)
           "blocks.png" blocks_image blocks_image).
  - vm_compute. reflexivity.
  - vm_compute. reflexivity.
  - vm_compute. discriminate.
Defined.

(** * The order of the palette *)

(** In a descending list an element with a larger key stands before one
    with a smaller key. *)
Lemma descending_before {A : Type} (key : A -> Z) (l : list A) (x y : A) :
  descending key l -> x ∈ l -> y ∈ l -> key y < key x ->
  exists l1 l2 l3, l = l1 ++ x :: l2 ++ y :: l3.
Proof.
  unfold descending. intros Hsorted Hx Hy Hlt.
  apply list_elem_of_split in Hx as (l1 & r & ->).
  apply elem_of_app in Hy as [Hy|Hy].
  - exfalso.
    pose proof (StronglySorted_app_1_elem_of _ _ _ y x Hsorted Hy ltac:(left)).
    simpl in *. lia.
  - apply elem_of_cons in Hy as [->|Hy]; [lia|].
    apply list_elem_of_split in Hy as (l2 & l3 & ->). by exists l1, l2, l3.
Qed.

(** C3. For every image that decodes into a histogram [h], the run prints
    and returns its accepted entries in descending order of count, and
    entries with equal counts keep the order they have in [h]. No entry
    above the threshold is lost: its hex code is in the palette. When the
    hex codes of [h] are pairwise different, as they are for the colours
    of an image, the accepted entries with a given count above 100 are
    exactly those of [h], in the order of [h], and of two entries of [h]
    above the threshold the one with the larger count is listed first
    (count 500 before count 200). *)
Theorem palette_descending_stable {pil : PIL} (image_path : string)
    (raw img : Image) (h : list Entry) :
  Image_open image_path = Ret raw ->
  Image_convert raw "RGB" = Ret img ->
  Image_getcolors img 1000000 = Ret (Some h) ->
  exists accepted : list Entry,
    get_unique_colors image_path
    = (FileOpen image_path :: Stdout "Extracted Colors:"
         :: map Stdout (map entry_line accepted),
       Ret (Some (map entry_hex accepted)))
    /\ descending entry_count accepted
    /\ (forall k, filter (λ e, entry_count e = k) accepted
                  `sublist_of` filter (λ e, entry_count e = k) h)
    /\ (forall e, e ∈ h -> 100 < entry_count e ->
                  entry_hex e ∈ map entry_hex accepted)
    /\ (NoDup (map entry_hex h) ->
        (forall k, 100 < k ->
                   filter (λ e, entry_count e = k) accepted
                   = filter (λ e, entry_count e = k) h)
        /\ (forall e1 e2, e1 ∈ h -> e2 ∈ h ->
                          100 < entry_count e2 -> entry_count e2 < entry_count e1 ->
                          exists l1 l2 l3, accepted = l1 ++ e1 :: l2 ++ e2 :: l3)).
Proof.
  intros Hopen Hconvert Hcolors.
  assert (Hsub : kept (sort_reverse entry_count h) ∅
                 `sublist_of` sort_reverse entry_count h).
  { etrans; [apply kept_sublist | apply sublist_filter]. }
  assert (Hdesc : descending entry_count (kept (sort_reverse entry_count h) ∅)).
  { eapply descending_sublist; [exact Hsub|]. apply sort_reverse_descending. }
  exists (kept (sort_reverse entry_count h) ∅).
  split; [|split; [|split; [|split]]].
  - rewrite get_unique_colors_run.
    by rewrite (pil_colors_ret _ _ _ _ Hopen Hconvert Hcolors).
  - exact Hdesc.
  - intros k. rewrite <- (sort_reverse_stable entry_count k h).
    by apply filter_sublist_mono.
  - intros e He Hn. apply kept_elem. split; [apply not_elem_of_empty|].
    exists e. by rewrite (sort_reverse_perm entry_count h).
  - intros Hnodup.
    assert (Hkept : kept (sort_reverse entry_count h) ∅
                    = filter (λ e, 100 < entry_count e)
                        (sort_reverse entry_count h)).
    { apply kept_filter.
      - by rewrite (sort_reverse_perm entry_count h).
      - intros e _. apply not_elem_of_empty. }
    assert (Hin : forall e, e ∈ h -> 100 < entry_count e ->
                            e ∈ kept (sort_reverse entry_count h) ∅).
    { intros e He Hn. rewrite Hkept. apply list_elem_of_filter.
      by rewrite (sort_reverse_perm entry_count h). }
    split.
    + intros k Hk. rewrite Hkept.
      rewrite list_filter_filter_l by (intros e ->; exact Hk).
      apply sort_reverse_stable.
    + intros e1 e2 He1 He2 Hn Hlt.
      apply (descending_before entry_count); [exact Hdesc|..|exact Hlt].
      * apply Hin; [exact He1|lia].
      * by apply Hin.
Qed.

Lemma palette_descending_stable_witness :
  exists accepted : list Entry,
    get_unique_colors (pil := ref_pil ties_disk) "ties.png"
    = (FileOpen "ties.png" :: Stdout "Extracted Colors:"
         :: map Stdout (map entry_line accepted),
       Ret (Some (map entry_hex accepted)))
    /\ descending entry_count accepted
    /\ (forall k, filter (λ e, entry_count e = k) accepted
                  `sublist_of` filter (λ e, entry_count e = k)
                                 [(150, teal); (300, orange); (150, grey); (30, white)])
    /\ (forall e, e ∈ [(150, teal); (300, orange); (150, grey); (30, white)] ->
                  100 < entry_count e -> entry_hex e ∈ map entry_hex accepted)
    /\ (NoDup (map entry_hex [(150, teal); (300, orange); (150, grey); (30, white)]) ->
        (forall k, 100 < k ->
                   filter (λ e, entry_count e = k) accepted
                   = filter (λ e, entry_count e = k)
                       [(150, teal); (300, orange); (150, grey); (30, white)])
        /\ (forall e1 e2,
              e1 ∈ [(150, teal); (300, orange); (150, grey); (30, white)] ->
              e2 ∈ [(150, teal); (300, orange); (150, grey); (30, white)] ->
              100 < entry_count e2 -> entry_count e2 < entry_count e1 ->
              exists l1 l2 l3, accepted = l1 ++ e1 :: l2 ++ e2 :: l3)).
Proof.
  apply (palette_descending_stable (pil := ref_pil ties_disk)
           "ties.png" ties_image ties_image);
    vm_compute; reflexivity.
Defined.

(** The tied colours come out in the order of the histogram, after the
    colour with the larger count. *)
Example ties_run :
  get_unique_colors (pil := ref_pil ties_disk) "ties.png"
  = ([FileOpen "ties.png"; Stdout "Extracted Colors:";
      Stdout "#ff8000 (count: 300)"; Stdout "#008080 (count: 150)";
      Stdout "#111111 (count: 150)"],
     Ret (Some ["#ff8000"; "#008080"; "#111111"]%string)).
Proof. vm_compute. reflexivity. Qed.
